(** * Discodrome: a shallow embedding of the playback core

    The development follows the Python sources:
    - [subsonic.py]: metadata objects parsed from JSON, the error check
      of the API envelope and the request functions;
    - [pagination.py]: [ListPaginator];
    - [extensions/music.py]: the [stop] and [shuffle] commands and the
      voice-state listener.

    Python values that come from the remote API are JSON values, Python
    exceptions are the [Raise] outcomes of a [result], and code that
    talks to the network, the disk or the logger is written in a state
    and error monad over a [World]. *)

From Stdlib Require Import ZArith String Ascii DecimalString DecimalZ DecimalPos.
From stdpp Require Import base list strings.

Local Open Scope string_scope.
Local Open Scope list_scope.

(** ** JSON values and Python exceptions *)

(** A parsed JSON document.  Objects keep their items in insertion
    order; numbers are the integers (the API's codes, counts and
    durations). *)
#[warnings="-register-all"]
Inductive json : Type :=
  | JNull
  | JBool (b : bool)
  | JNum (z : Z)
  | JStr (s : string)
  | JList (l : list json)
  | JObj (d : list (string * json)).

(** The exceptions the modelled code can raise. *)
Inductive exn : Type :=
  | KeyError (key : string)
  | TypeError
  | IndexError
  | ZeroDivisionError
  | APIError (errorcode : json) (message : string)
  | ClientResponseError (http_status : Z)
  | ClientConnectionError
  | ContentTypeError
  | AttributeError.

Inductive result (A : Type) : Type :=
  | Ok (a : A)
  | Raise (e : exn).
Arguments Ok {A} a.
Arguments Raise {A} e.

Definition rbind {A B} (r : result A) (f : A -> result B) : result B :=
  match r with
  | Ok a => f a
  | Raise e => Raise e
  end.

Declare Scope result_scope.
Delimit Scope result_scope with res.
Notation "'let?' x := r 'in' k" := (rbind r (fun x => k))
  (at level 10, x name, r at level 100, k at level 200) : result_scope.

(** [for x in xs: ...] over a fallible constructor. *)
Fixpoint rmap {A B} (f : A -> result B) (xs : list A) : result (list B) :=
  match xs with
  | [] => Ok []
  | x :: xs' =>
      rbind (f x) (fun y => rbind (rmap f xs') (fun ys => Ok (y :: ys)))
  end.

(** Python dictionaries with string keys, as item lists. *)
Fixpoint dict_get (k : string) (d : list (string * json)) : option json :=
  match d with
  | [] => None
  | (k', v) :: d' => if String.eqb k k' then Some v else dict_get k d'
  end.

(** [d1 | d2]: the items of [d1] with the values of [d2] where the keys
    agree, followed by the items of [d2] under new keys. *)
Fixpoint dict_set (k : string) (v : json) (d : list (string * json))
  : list (string * json) :=
  match d with
  | [] => [(k, v)]
  | (k', v') :: d' =>
      if String.eqb k k' then (k', v) :: d' else (k', v') :: dict_set k v d'
  end.

Definition dict_union (d1 d2 : list (string * json)) : list (string * json) :=
  fold_left (fun acc kv => dict_set (fst kv) (snd kv) acc) d2 d1.

Definition is_str (k : string) (j : json) : bool :=
  match j with
  | JStr s => String.eqb s k
  | _ => false
  end.

Definition is_substring (k s : string) : bool :=
  match String.index 0 k s with
  | Some _ => true
  | None => false
  end.

(** [obj[key]] for a string key. *)
Definition getitem (j : json) (k : string) : result json :=
  match j with
  | JObj d =>
      match dict_get k d with
      | Some v => Ok v
      | None => Raise (KeyError k)
      end
  | _ => Raise TypeError
  end.

(** [key in obj] for a string key: key membership on a dict, element
    membership on a list, substring test on a string. *)
Definition contains (k : string) (j : json) : result bool :=
  match j with
  | JObj d => Ok (bool_decide (is_Some (dict_get k d)))
  | JList l => Ok (existsb (is_str k) l)
  | JStr s => Ok (is_substring k s)
  | _ => Raise TypeError
  end.

Definition string_chars (s : string) : list json :=
  map (fun c => JStr (String c EmptyString)) (list_ascii_of_string s).

(** The elements [for x in obj] visits. *)
Definition iter (j : json) : result (list json) :=
  match j with
  | JList l => Ok l
  | JObj d => Ok (map (fun kv => JStr (fst kv)) d)
  | JStr s => Ok (string_chars s)
  | _ => Raise TypeError
  end.

(** [obj[0]]. *)
Definition getitem0 (j : json) : result json :=
  match j with
  | JList (x :: _) => Ok x
  | JList [] => Raise IndexError
  | JStr (String c _) => Ok (JStr (String c EmptyString))
  | JStr EmptyString => Raise IndexError
  | JObj _ => Raise (KeyError "0")
  | _ => Raise TypeError
  end.

(** [json_object[key] if key in json_object else default] *)
Definition get_or (json_object : json) (k : string) (default : json)
  : result json :=
  (let? present := contains k json_object in
   if present then getitem json_object k else Ok default)%res.

(** ** Metadata objects ([subsonic.py]) *)

Module Song.
Record t : Type := mk {
  _id : json;
  _title : json;
  _album : json;
  _artist : json;
  _cover_id : json;
  _duration : json
}.

Definition __init__ (json_object : json) : result t :=
  (let? i := get_or json_object "id" (JStr "") in
   let? ti := get_or json_object "title" (JStr "Unknown Track") in
   let? al := get_or json_object "album" (JStr "Unknown Album") in
   let? ar := get_or json_object "artist" (JStr "Unknown Artist") in
   let? co := get_or json_object "coverArt" (JStr "") in
   let? du := get_or json_object "duration" (JNum 0) in
   Ok (mk i ti al ar co du))%res.

(** The read-only properties. *)
Definition song_id (s : t) : json := _id s.
Definition title (s : t) : json := _title s.
Definition album (s : t) : json := _album s.
Definition artist (s : t) : json := _artist s.
Definition cover_id (s : t) : json := _cover_id s.
Definition duration (s : t) : json := _duration s.


End Song.

Module AlbumMeta.
Record t : Type := mk {
  _id : json;
  _name : json;
  _artist : json;
  _cover_id : json;
  _song_count : json;
  _duration : json;
  _year : json
}.

Definition __init__ (json_object : json) : result t :=
  (let? i := get_or json_object "id" (JStr "") in
   let? na := get_or json_object "name" (JStr "Unknown Album") in
   let? ar := get_or json_object "artist" (JStr "Unknown Artist") in
   let? co := get_or json_object "coverArt" (JStr "") in
   let? sc := get_or json_object "songCount" (JNum 0) in
   let? du := get_or json_object "duration" (JNum 0) in
   let? ye := get_or json_object "year" (JNum 0) in
   Ok (mk i na ar co sc du ye))%res.
End AlbumMeta.

Module Album.
Record t : Type := mk {
  meta : AlbumMeta.t;
  _songs : list Song.t
}.

(** [super().__init__(json_object)], then one [Song] per element of
    [json_object["song"]]. *)
Definition __init__ (json_object : json) : result t :=
  (let? m := AlbumMeta.__init__ json_object in
   let? song := getitem json_object "song" in
   let? items := iter song in
   let? songs := rmap Song.__init__ items in
   Ok (mk m songs))%res.

Definition songs (a : t) : list Song.t := _songs a.
End Album.

Module ArtistMeta.
Record t : Type := mk {
  _id : json;
  _name : json;
  _cover_id : json;
  _album_count : json
}.

Definition __init__ (json_object : json) : result t :=
  (let? i := get_or json_object "id" (JStr "") in
   let? na := get_or json_object "name" (JStr "Unknown Artist") in
   let? co := get_or json_object "coverArt" (JStr "") in
   let? ac := get_or json_object "albumCount" (JNum 0) in
   Ok (mk i na co ac))%res.
End ArtistMeta.

Module Artist.
Record t : Type := mk {
  meta : ArtistMeta.t;
  _albums : list Album.t
}.

(** [super().__init__(json_object)], then one [Album] per element of
    [json_object["album"]]. *)
Definition __init__ (json_object : json) : result t :=
  (let? m := ArtistMeta.__init__ json_object in
   let? album := getitem json_object "album" in
   let? items := iter album in
   let? albums := rmap Album.__init__ items in
   Ok (mk m albums))%res.

Definition albums (a : t) : list Album.t := _albums a.
End Artist.

Module PlaylistMeta.
Record t : Type := mk {
  _id : json;
  _name : json;
  _cover_id : json;
  _song_count : json;
  _duration : json
}.

Definition __init__ (json_object : json) : result t :=
  (let? i := get_or json_object "id" (JStr "") in
   let? na := get_or json_object "name" (JStr "Unknown Album") in
   let? co := get_or json_object "coverArt" (JStr "") in
   let? sc := get_or json_object "songCount" (JNum 0) in
   let? du := get_or json_object "duration" (JNum 0) in
   Ok (mk i na co sc du))%res.
End PlaylistMeta.

Module Playlist.
Record t : Type := mk {
  meta : PlaylistMeta.t;
  _songs : list Song.t
}.

(** [super().__init__(json_object)], then one [Song] per element of
    [json_object["entry"]]. *)
Definition __init__ (json_object : json) : result t :=
  (let? m := PlaylistMeta.__init__ json_object in
   let? entry := getitem json_object "entry" in
   let? items := iter entry in
   let? songs := rmap Song.__init__ items in
   Ok (mk m songs))%res.

Definition songs (p : t) : list Song.t := _songs p.
End Playlist.

Module ApiResponse.
Record t : Type := mk {
  _raw_response : json;
  _status : json;
  _error_code : json;
  _error_message : json
}.

(** [response[sr]["error"][field] if "error" in response[sr] else None] *)
Definition error_field (response : json) (field : string) : result json :=
  (let? sr := getitem response "subsonic-response" in
   let? present := contains "error" sr in
   if present then
     let? sr' := getitem response "subsonic-response" in
     let? err := getitem sr' "error" in
     getitem err field
   else Ok JNull)%res.

Definition __init__ (response : json) : result t :=
  (let? sr := getitem response "subsonic-response" in
   let? st := getitem sr "status" in
   let? code := error_field response "code" in
   let? message := error_field response "message" in
   Ok (mk response st code message))%res.

Definition succeeded (r : t) : bool := is_str "ok" (_status r).
End ApiResponse.

Module SearchResults.
Record t : Type := mk {
  base : ApiResponse.t;
  _songs : list Song.t;
  _albums : list AlbumMeta.t;
  _artists : list ArtistMeta.t
}.

(** [if key in search_results: for x in search_results[key]: ...] *)
Definition parse_category {A} (init : json -> result A)
    (search_results : json) (key : string) : result (list A) :=
  (let? present := contains key search_results in
   if present then
     let? xs := getitem search_results key in
     let? items := iter xs in
     rmap init items
   else Ok [])%res.

Definition __init__ (response : json) : result t :=
  (let? b := ApiResponse.__init__ response in
   let? sr := getitem response "subsonic-response" in
   let? present := contains "searchResult3" sr in
   let? search_results :=
     (if present then
        let? sr' := getitem response "subsonic-response" in
        getitem sr' "searchResult3"
      else Ok (JObj [])) in
   let? songs := parse_category Song.__init__ search_results "song" in
   let? albums := parse_category AlbumMeta.__init__ search_results "album" in
   let? artists :=
     parse_category ArtistMeta.__init__ search_results "artist" in
   Ok (mk b songs albums artists))%res.

Definition songs (r : t) : list Song.t := _songs r.
Definition albums (r : t) : list AlbumMeta.t := _albums r.
Definition artists (r : t) : list ArtistMeta.t := _artists r.
End SearchResults.

(** ** The world the client runs in *)

(** What [session.get] hands back: the HTTP status, the body parsed as
    JSON when it is JSON, and the raw body. *)
Record ClientResponse : Type := {
  status : Z;
  json_body : option json;
  content : string
}.

(** [await response.json()], which fails on a body that is not JSON. *)
Definition response_json (response : ClientResponse) : result json :=
  match json_body response with
  | Some j => Ok j
  | None => Raise ContentTypeError
  end.

Record Request : Type := {
  req_url : string;
  req_params : list (string * json)
}.

Record LogRecord : Type := {
  levelname : string;
  msg : string;
  args : list json
}.

(** The server is a script of answers, one per request, in order;
    [None], like an exhausted script, is a connection that fails.
    [requests] records what was sent, [files] the paths that exist on
    disk with their content, [log] the records logged at warning level
    (the debug and info messages of the sources are left out). *)
Record World : Type := {
  globalsession : bool;
  network : list (option ClientResponse);
  requests : list Request;
  files : list (string * string);
  log : list LogRecord
}.

Definition M (A : Type) : Type := World -> result A * World.

Definition ret {A} (a : A) : M A := fun w => (Ok a, w).
Definition raise {A} (e : exn) : M A := fun w => (Raise e, w).
Definition lift {A} (r : result A) : M A := fun w => (r, w).

Definition bind {A B} (m : M A) (f : A -> M B) : M B :=
  fun w =>
    match m w with
    | (Ok a, w') => f a w'
    | (Raise e, w') => (Raise e, w')
    end.

Declare Scope world_scope.
Delimit Scope world_scope with world.
Notation "'let!' x := m 'in' k" := (bind m (fun x => k))
  (at level 10, x name, m at level 100, k at level 200) : world_scope.
Notation "m ;; k" := (bind m (fun _ => k))
  (at level 100, k at level 200, right associativity) : world_scope.

(** [get_session]: the shared session is created on first use. *)
Definition get_session : M unit :=
  fun w =>
    (Ok tt,
     {| globalsession := true; network := network w;
        requests := requests w; files := files w; log := log w |}).

(** [await session.get(url, params=params)] *)
Definition session_get (url : string) (params : list (string * json))
  : M ClientResponse :=
  fun w =>
    let sent := requests w ++ [{| req_url := url; req_params := params |}] in
    match network w with
    | [] =>
        (Raise ClientConnectionError,
         {| globalsession := globalsession w; network := [];
            requests := sent; files := files w; log := log w |})
    | r :: rest =>
        (match r with
         | Some response => Ok response
         | None => Raise ClientConnectionError
         end,
         {| globalsession := globalsession w; network := rest;
            requests := sent; files := files w; log := log w |})
    end.

(** [response.raise_for_status()] *)
Definition raise_for_status (response : ClientResponse) : M unit :=
  if (400 <=? status response)%Z
  then raise (ClientResponseError (status response))
  else ret tt.

Definition logger_warning (fmt : string) (a : list json) : M unit :=
  fun w =>
    (Ok tt,
     {| globalsession := globalsession w; network := network w;
        requests := requests w; files := files w;
        log := log w ++ [{| levelname := "WARNING"; msg := fmt; args := a |}] |}).

(** [os.path.exists(path)] *)
Definition path_exists (path : string) : M bool :=
  fun w => (Ok (existsb (fun f => String.eqb (fst f) path) (files w)), w).

(** [Path(path).write_bytes(data)], parent directories created. *)
Definition write_bytes (path data : string) : M unit :=
  fun w =>
    (Ok tt,
     {| globalsession := globalsession w; network := network w;
        requests := requests w;
        files := (path, data)
                 :: filter (fun f => negb (String.eqb (fst f) path)) (files w);
        log := log w |}).

(** ** The API client ([subsonic.py]) *)

(** [str(n)] for an integer. *)
Definition str (n : Z) : string := NilZero.string_of_int (Z.to_int n).

(** [value == n] for an integer literal [n] (Python compares a bool as
    the integer it is). *)
Definition py_eq_int (value : json) (n : Z) : bool :=
  match value with
  | JNum z => (z =? n)%Z
  | JBool b => (Z.b2z b =? n)%Z
  | _ => false
  end.

(** [value == {}] *)
Definition is_empty_dict (value : json) : bool :=
  match value with
  | JObj [] => true
  | _ => false
  end.

(** [f"{n:02d}"]: at least two characters, padded with a zero. *)
Definition format_02d (n : Z) : string :=
  if ((0 <=? n) && (n <? 10))%Z then String "0" (str n) else str n.

(** [f"{(duration // 60):02d}:{(duration % 60):02d}"].  A bool counts as
    the integer it is; anything else that is not a number cannot be
    divided. *)
Definition minutes_seconds (duration : json) : result string :=
  match duration with
  | JNum d =>
      Ok (String.append (format_02d (d / 60))
            (String ":" (format_02d (d mod 60))))
  | JBool b =>
      Ok (String.append (format_02d (Z.b2z b / 60))
            (String ":" (format_02d (Z.b2z b mod 60))))
  | _ => Raise TypeError
  end.

(** [Song.duration_printable] and [AlbumMeta.duration_printable] *)
Definition Song_duration_printable (s : Song.t) : result string :=
  minutes_seconds (Song._duration s).

Definition AlbumMeta_duration_printable (a : AlbumMeta.t) : result string :=
  minutes_seconds (AlbumMeta._duration a).

(** The [case] arms of [check_subsonic_error] that raise, in order. *)
Definition fatal_cases : list (Z * string) :=
  [ (0, "Generic Error.");
    (10, "Required Parameter Missing.");
    (20, "Incompatible Subsonic REST protocol version. Client must upgrade.");
    (30, "Incompatible Subsonic REST protocol version. Server must upgrade.");
    (40, "Wrong username or password.");
    (41, "Token authentication not supported for LDAP users.");
    (50, "User is not authorized for the given operation.");
    (60, "The trial period for the Subsonic server is over.") ]%Z.

(** The argument of [check_subsonic_error]: a parsed body, or the
    response object itself. *)
Inductive check_arg : Type :=
  | Parsed (j : json)
  | Unparsed (r : ClientResponse).

(** The values of [util.env] the client reads. *)
Record Env : Type := {
  SUBSONIC_SERVER : string;
  SUBSONIC_USER : string;
  SUBSONIC_PASSWORD : string
}.

Section Subsonic.
Variable env : Env.

Local Open Scope world_scope.

Definition SUBSONIC_REQUEST_PARAMS : list (string * json) :=
  [ ("u", JStr (SUBSONIC_USER env));
    ("p", JStr (SUBSONIC_PASSWORD env));
    ("v", JStr "1.15.0");
    ("c", JStr "discodrome");
    ("f", JStr "json") ].

Definition endpoint (path : string) : string :=
  String.append (SUBSONIC_SERVER env) path.

(** The [match err_code] statement: the first arm whose literal equals
    the code decides. *)
Definition match_err_code (err_code : json) : M bool :=
  match find (fun c => py_eq_int err_code (fst c)) fatal_cases with
  | Some (_, err_msg) => raise (APIError err_code err_msg)
  | None =>
      if py_eq_int err_code 70 then
        let err_msg := "The requested data was not found." in
        logger_warning
          "Subsonic API request responded with error code %s: %s"
          [err_code; JStr err_msg] ;;
        ret true
      else raise (APIError err_code "Unknown Error Code.")
  end.

Definition check_parsed (response : json) : M bool :=
  let! sr := lift (getitem response "subsonic-response") in
  let! st := lift (getitem sr "status") in
  if is_str "ok" st then ret false
  else
    let! sr' := lift (getitem response "subsonic-response") in
    let! err := lift (getitem sr' "error") in
    let! err_code := lift (getitem err "code") in
    match_err_code err_code.

Definition check_subsonic_error (response : check_arg) : M bool :=
  match response with
  | Parsed j => check_parsed j
  | Unparsed r =>
      (* try: response = await response.json()
         except Exception: return False *)
      match response_json r with
      | Raise _ => ret false
      | Ok j => check_parsed j
      end
  end.

Definition search (query : string)
    (artist_count artist_offset album_count album_offset
     song_count song_offset : Z) : M SearchResults.t :=
  let search_params :=
    [ ("query", JStr query);
      ("artistCount", JStr (str artist_count));
      ("artistOffset", JStr (str artist_offset));
      ("albumCount", JStr (str album_count));
      ("albumOffset", JStr (str album_offset));
      ("songCount", JStr (str song_count));
      ("songOffset", JStr (str song_offset)) ] in
  let params := dict_union SUBSONIC_REQUEST_PARAMS search_params in
  get_session ;;
  let! response := session_get (endpoint "/rest/search3.view") params in
  raise_for_status response ;;
  let! search_data := lift (response_json response) in
  let! results := lift (SearchResults.__init__ search_data) in
  ret results.

(** Returns the artist's id, or [None] (here [JNull]). *)
Definition get_artist_id (query : string) : M json :=
  let search_params :=
    [ ("query", JStr query);
      ("artistCount", JStr "1");
      ("albumCount", JStr "0");
      ("albumOffset", JStr "0");
      ("songCount", JStr "0");
      ("songOffset", JStr "0") ] in
  let params := dict_union SUBSONIC_REQUEST_PARAMS search_params in
  get_session ;;
  let! response := session_get (endpoint "/rest/search3.view") params in
  raise_for_status response ;;
  let! search_data := lift (response_json response) in
  let! err := check_subsonic_error (Parsed search_data) in
  if err then ret JNull
  else
    let! sr := lift (getitem search_data "subsonic-response") in
    let! res := lift (getitem sr "searchResult3") in
    let! artists := lift (getitem res "artist") in
    let! first := lift (getitem0 artists) in
    let! artistid := lift (getitem first "id") in
    ret artistid.




Definition get_album_art_file (cover_id : string) (size : Z) : M string :=
  let target_path := String.append "cache/" (String.append cover_id ".jpg") in
  let! cached := path_exists target_path in
  if cached then ret target_path
  else
    let cover_params := [("id", JStr cover_id); ("size", JStr (str size))] in
    let params := dict_union SUBSONIC_REQUEST_PARAMS cover_params in
    get_session ;;
    let! response := session_get (endpoint "/rest/getCoverArt") params in
    let! err := check_subsonic_error (Unparsed response) in
    if err || negb (status response =? 200)%Z
    then ret "resources/cover_not_found.jpg"
    else
      write_bytes target_path (content response) ;;
      ret target_path.

(** [if value is not None: search_params[key] = value] *)
Definition optional (key : string) (value : option json)
    (search_params : list (string * json)) : list (string * json) :=
  match value with
  | Some v => dict_set key v search_params
  | None => search_params
  end.

Definition get_random_songs (size : option Z) (genre : option string)
    (from_year to_year : option Z) (music_folder_id : option string)
  : M (list Song.t) :=
  let search_params :=
    optional "musicFolderId" (JStr <$> music_folder_id)
      (optional "toYear" (JNum <$> to_year)
         (optional "fromYear" (JNum <$> from_year)
            (optional "genre" (JStr <$> genre)
               (optional "size" (JNum <$> size) [])))) in
  let params := dict_union SUBSONIC_REQUEST_PARAMS search_params in
  get_session ;;
  let! response := session_get (endpoint "/rest/getRandomSongs.view") params in
  raise_for_status response ;;
  let! search_data := lift (response_json response) in
  let! err := check_subsonic_error (Parsed search_data) in
  if err then ret []
  else
    let! sr := lift (getitem search_data "subsonic-response") in
    let! rs := lift (getitem sr "randomSongs") in
    let! song := lift (getitem rs "song") in
    let! items := lift (iter song) in
    let! results := lift (rmap Song.__init__ items) in
    ret results.

(** [song_id] is a Python value: [JNull] is [None]. *)
Definition get_similar_songs (song_id : json) (count : Z) : M (list Song.t) :=
  match song_id with
  | JNull => ret []
  | _ =>
      let search_params := [("id", song_id); ("count", JNum count)] in
      let params := dict_union SUBSONIC_REQUEST_PARAMS search_params in
      get_session ;;
      let! response :=
        session_get (endpoint "/rest/getSimilarSongs.view") params in
      raise_for_status response ;;
      let! search_data := lift (response_json response) in
      let! subsonic_error := check_subsonic_error (Parsed search_data) in
      if subsonic_error then ret []
      else
        let! sr := lift (getitem search_data "subsonic-response") in
        let! similar := lift (getitem sr "similarSongs") in
        if is_empty_dict similar then ret []
        else
          let! sr' := lift (getitem search_data "subsonic-response") in
          let! similar' := lift (getitem sr' "similarSongs") in
          let! song := lift (getitem similar' "song") in
          let! items := lift (iter song) in
          let! results := lift (rmap Song.__init__ items) in
          ret results
  end.
End Subsonic.

(** [logger.error(fmt, e)].  The record keeps the level and the format;
    the exception passed as argument has no JSON form and is not kept. *)
Definition logger_error (fmt : string) (e : exn) : M unit :=
  fun w =>
    (Ok tt,
     {| globalsession := globalsession w; network := network w;
        requests := requests w; files := files w;
        log := log w ++ [{| levelname := "ERROR"; msg := fmt; args := [] |}] |}).

(** [close_session]: the shared session is dropped. *)
Definition close_session : M unit :=
  fun w =>
    (Ok tt,
     {| globalsession := false; network := network w;
        requests := requests w; files := files w; log := log w |}).

(** [obj[key] = []] *)
Definition setitem_empty_list (obj : json) : result unit :=
  match obj with
  | JObj _ => Ok tt
  | _ => Raise TypeError
  end.

Section SubsonicPlaylists.
Variable env : Env.

Local Open Scope world_scope.

Definition ping_api : M bool :=
  get_session ;;
  let! response :=
    session_get (endpoint env "/rest/ping.view") (SUBSONIC_REQUEST_PARAMS env) in
  raise_for_status response ;;
  let! ping_data := lift (response_json response) in
  let! err := check_subsonic_error (Parsed ping_data) in
  if err then ret false else ret true.

(** Returns the list of playlists, or [None] (here [JNull]). *)
Definition get_user_playlists : M json :=
  get_session ;;
  let! response :=
    session_get (endpoint env "/rest/getPlaylists.view")
      (SUBSONIC_REQUEST_PARAMS env) in
  raise_for_status response ;;
  let! query_data := lift (response_json response) in
  let! err := check_subsonic_error (Parsed query_data) in
  if err then ret JNull
  else
    let! sr := lift (getitem query_data "subsonic-response") in
    let! playlists := lift (getitem sr "playlists") in
    let! present := lift (contains "playlist" playlists) in
    if negb present then
      lift (setitem_empty_list playlists) ;;
      ret (JList [])
    else
      let! playlist := lift (getitem playlists "playlist") in
      ret playlist.

(** The [try] block of [get_playlist]. *)
Definition parse_playlist (playlist : json) : result Playlist.t :=
  (let? sr := getitem playlist "subsonic-response" in
   let? pl := getitem sr "playlist" in
   Playlist.__init__ pl)%res.

Definition get_playlist (id : string) : M (option Playlist.t) :=
  let playlist_params := [("id", JStr id)] in
  let params := dict_union (SUBSONIC_REQUEST_PARAMS env) playlist_params in
  get_session ;;
  let! response := session_get (endpoint env "/rest/getPlaylist.view") params in
  raise_for_status response ;;
  let! playlist := lift (response_json response) in
  let! err := check_subsonic_error (Parsed playlist) in
  if err then ret None
  else
    match parse_playlist playlist with
    | Raise e =>
        logger_error "Failed to parse playlist data: %s" e ;;
        ret None
    | Ok p => ret (Some p)
    end.
End SubsonicPlaylists.

(** ** Pagination ([pagination.py]) *)

(** The dict [{'input_index': i, 'data': item}]. *)
Record Entry (A : Type) : Type := {
  input_index : nat;
  data : A
}.
Arguments input_index {A} _.
Arguments data {A} _.

(** The position [l[i]] denotes in a list of length [len]: negative
    indices count from the end; [None] is an IndexError. *)
Definition py_index (len : nat) (i : Z) : option nat :=
  if (0 <=? i)%Z then
    (if (i <? Z.of_nat len)%Z then Some (Z.to_nat i) else None)
  else
    (if (- Z.of_nat len <=? i)%Z then Some (Z.to_nat (Z.of_nat len + i))
     else None).

Module ListPaginator.
Record t (A : Type) : Type := mk {
  pages : list (list (Entry A));
  items_per_page : Z;
  num_pages : Z
}.
Arguments mk {A} _ _ _.
Arguments pages {A} _.
Arguments items_per_page {A} _.
Arguments num_pages {A} _.

(** [math.ceil(n / k)] and [math.floor(i / k)] on integers.  The
    source divides in floating point, which is exact at the sizes a
    list can have. *)
Definition ceil_div (n k : Z) : Z := (- ((- n) / k))%Z.
Definition floor_div (i k : Z) : Z := (i / k)%Z.

(** The second loop, over the indices [range(len(items))] fixed when
    the loop starts.  The state is the pages built so far and the
    caller's list; the page is looked up before the item is popped. *)
Fixpoint fill {A} (indices : list nat) (items_per_page : Z)
    (pages : list (list (Entry A))) (items : list A)
  : result (list (list (Entry A))) * list A :=
  match indices with
  | [] => (Ok pages, items)
  | i :: indices' =>
      match py_index (length pages)
              (floor_div (Z.of_nat i) items_per_page) with
      | None => (Raise IndexError, items)
      | Some p =>
          match items with
          | [] => (Raise IndexError, items)
          | item :: items' =>
              fill indices' items_per_page
                (alter (fun page =>
                          page ++ [{| input_index := i; data := item |}])
                   p pages)
                items'
          end
      end
  end.

(** The constructor, as a function of the caller's list that also
    returns what is left of that list. *)
Definition __init__ {A} (items : list A) (items_per_page : Z)
  : result (t A) * list A :=
  if (items_per_page =? 0)%Z then (Raise ZeroDivisionError, items)
  else
    let num_pages := ceil_div (Z.of_nat (length items)) items_per_page in
    let pages := replicate (Z.to_nat num_pages) [] in
    match fill (seq 0 (length items)) items_per_page pages items with
    | (Ok pages', items') =>
        (Ok (mk pages' items_per_page num_pages), items')
    | (Raise e, items') => (Raise e, items')
    end.
End ListPaginator.

(** ** The music commands ([extensions/music.py]) *)

(** A message sent to the channel: the embed's title and description. *)
Record Embed : Type := {
  title : string;
  description : option string
}.

(** Modelled from the spec: the [Player] of the [data] module, which is
    not among the sources.  Per guild it holds an ordered, mutable queue
    of tracks and an optional current track; [music.py] reads and writes
    them as [player.queue] and [player.current_song].  A queue slot or
    the current song holds a reference to a [Song] object in the heap, or
    Python's [None]. *)
Record Player : Type := {
  queue : list (option nat);
  current_song : option nat
}.

Record VoiceClient : Type := {
  playing : bool
}.

(** What a command sees of its guild: the [Song] objects alive (a
    reference is a position in [heap]), the player that
    [data.guild_data(ctx.guild.id).player] returns, the voice client
    registered for the guild, if any, and the messages sent so far. *)
Record Guild : Type := {
  heap : list Song.t;
  player : Player;
  voice_client : option VoiceClient;
  sent : list Embed
}.

(** [ui.SysMsg.msg(ctx, header, message)] *)
Definition SysMsg_msg (header : string) (message : option string)
    (g : Guild) : Guild :=
  let message' :=
    match message with
    | Some m =>
        if Nat.ltb 4096 (String.length m)
        then Some (String.append (substring 0 4093 m) "...")
        else Some m
    | None => None
    end in
  {| heap := heap g; player := player g; voice_client := voice_client g;
     sent := sent g ++ [{| title := header; description := message' |}] |}.

(** [ui.ErrMsg.msg(ctx, message)] *)
Definition ErrMsg_msg (message : string) (g : Guild) : Guild :=
  {| heap := heap g; player := player g; voice_client := voice_client g;
     sent := sent g ++ [{| title := "Error"; description := Some message |}] |}.

Definition set_player (p : Player) (g : Guild) : Guild :=
  {| heap := heap g; player := p; voice_client := voice_client g;
     sent := sent g |}.

(** The [stop] command.  [ui.ErrMsg.not_playing(ctx)] is called without
    [await] and without [return]: nothing is sent and the command goes
    on. *)
Definition stop (g : Guild) : Guild :=
  match voice_client g with
  | None => ErrMsg_msg "Not currently connected to a voice channel." g
  | Some _ =>
      (* voice_client.stop() *)
      let g1 :=
        {| heap := heap g; player := player g;
           voice_client := Some {| playing := false |}; sent := sent g |} in
      (* player.current_song = None *)
      let g2 :=
        set_player {| queue := queue (player g1); current_song := None |} g1 in
      (* player.queue.insert(0, player.current_song) *)
      let g3 :=
        set_player
          {| queue := current_song (player g2) :: queue (player g2);
             current_song := current_song (player g2) |} g2 in
      SysMsg_msg "Stopped queue playback" None g3
  end.

(** [copy.deepcopy] of the queue: every [Song] object met for the first
    time is rebuilt as a new object with the same attribute values; an
    object met again is replaced by the copy made before ([memo]);
    [None] copies to itself. *)
Fixpoint deepcopy (memo : list (nat * nat)) (h : list Song.t)
    (q : list (option nat)) : list Song.t * list (option nat) :=
  match q with
  | [] => (h, [])
  | None :: q' =>
      let (h', r) := deepcopy memo h q' in (h', None :: r)
  | Some l :: q' =>
      match list_find (fun m => fst m = l) memo with
      | Some (_, (_, l')) =>
          let (h', r) := deepcopy memo h q' in (h', Some l' :: r)
      | None =>
          match h !! l with
          | Some s =>
              let l' := length h in
              let (h', r) := deepcopy ((l, l') :: memo) (h ++ [s]) q' in
              (h', Some l' :: r)
          | None =>
              (* a reference to no object: Python has none *)
              let (h', r) := deepcopy memo h q' in (h', Some l :: r)
          end
      end
  end.

(** [randint(a, b)] from a raw random number. *)
Definition randint (a b raw : nat) : nat := a + raw mod (b - a + 1).

(** The [while len(temporaryqueue) > 0] loop.  [len] is the length of
    [temporaryqueue], which every turn lowers by one; [rnd n] is the raw
    number behind the [n]-th call of [randint].  Returns both lists as
    the loop leaves them. *)
Fixpoint shuffle_loop {A} (len : nat) (rnd : nat -> nat) (calls : nat)
    (temporaryqueue shuffledqueue : list A) : result (list A * list A) :=
  match len with
  | 0 => Ok (temporaryqueue, shuffledqueue)
  | S len' =>
      let randomindex := randint 0 (length temporaryqueue - 1) (rnd calls) in
      match temporaryqueue !! randomindex with
      | None => Raise IndexError
      | Some x =>
          shuffle_loop len' rnd (S calls)
            (delete randomindex temporaryqueue) (shuffledqueue ++ [x])
      end
  end.

(** The [shuffle] command. *)
Definition shuffle (rnd : nat -> nat) (g : Guild) : result Guild :=
  let (h', temporaryqueue) := deepcopy [] (heap g) (queue (player g)) in
  match shuffle_loop (length temporaryqueue) rnd 0 temporaryqueue [] with
  | Raise e => Raise e
  | Ok (_, shuffledqueue) =>
      let g1 :=
        {| heap := h';
           player := {| queue := shuffledqueue;
                        current_song := current_song (player g) |};
           voice_client := voice_client g; sent := sent g |} in
      Ok (SysMsg_msg "Queue shuffled!" None g1)
  end.

(** *** The voice-state listener *)

(** The bot as the listener sees it.  [members] is
    [len(voice_client.channel.members)], kept up to date by the gateway;
    [sleeping] holds the wake-up times of the handlers suspended in
    [sleep(10)], oldest first; [disconnects] counts the calls of
    [voice_client.disconnect()]. *)
Record Bot : Type := {
  guild : Guild;
  members : nat;
  now : nat;
  sleeping : list nat;
  disconnects : nat
}.

Inductive event : Type :=
  | VoiceStateUpdate (members_after : nat)
  | Tick.

(** [on_voice_state_update] up to [await sleep(10)]. *)
Definition on_voice_state_update (b : Bot) : Bot :=
  match voice_client (guild b) with
  | None => b
  | Some _ =>
      if Nat.eqb (members b) 1 then
        {| guild := guild b; members := members b; now := now b;
           sleeping := sleeping b ++ [now b + 10];
           disconnects := disconnects b |}
      else b
  end.

(** [on_voice_state_update] after [await sleep(10)]. *)
Definition after_sleep (b : Bot) : Bot :=
  if Nat.eqb (members b) 1 then
    let g := guild b in
    (* await voice_client.disconnect() *)
    let g1 :=
      {| heap := heap g; player := player g; voice_client := None;
         sent := sent g |} in
    (* player.queue.clear() *)
    let g2 :=
      set_player {| queue := []; current_song := current_song (player g1) |}
        g1 in
    (* player.current_song = None *)
    let g3 :=
      set_player {| queue := queue (player g2); current_song := None |} g2 in
    {| guild := g3; members := members b; now := now b;
       sleeping := sleeping b; disconnects := S (disconnects b) |}
  else b.

(** The handlers whose sleep ends now resume, oldest first. *)
Fixpoint wake (due : list nat) (b : Bot) : Bot :=
  match due with
  | [] => b
  | _ :: due' => wake due' (after_sleep b)
  end.

Definition step (e : event) (b : Bot) : Bot :=
  match e with
  | VoiceStateUpdate n =>
      on_voice_state_update
        {| guild := guild b; members := n; now := now b;
           sleeping := sleeping b; disconnects := disconnects b |}
  | Tick =>
      let t := S (now b) in
      let due := filter (fun t' => t' = t) (sleeping b) in
      let later := filter (fun t' => t' ≠ t) (sleeping b) in
      wake due
        {| guild := guild b; members := members b; now := t;
           sleeping := later; disconnects := disconnects b |}
  end.

Definition run (es : list event) (b : Bot) : Bot :=
  fold_left (fun b e => step e b) es b.

(** *** The [queue] and [clear] commands *)

(** The line feed of the f-strings. *)
Definition nl : string := String "010"%char EmptyString.

(** The [Song] behind a slot, for an attribute access; Python's [None]
    has no attributes. *)
Definition attributes (h : list Song.t) (o : option nat) : result Song.t :=
  match o with
  | Some l =>
      match h !! l with
      | Some s => Ok s
      | None => Raise AttributeError
      end
  | None => Raise AttributeError
  end.

Section ShowQueue.
(** What an f-string makes of a value, [format(value)], is Python's own
    and is left open. *)
Variable fmt : json -> string.

(** [f"**Now Playing:**\n{song.title} - *{song.artist}*\n{song.album}
    ({song.duration_printable})\n\n"] *)
Definition now_playing_text (song : Song.t) : result string :=
  (let? printable := Song_duration_printable song in
   Ok (String.append "**Now Playing:**"
      (String.append nl
      (String.append (fmt (Song.title song))
      (String.append " - *"
      (String.append (fmt (Song.artist song))
      (String.append "*"
      (String.append nl
      (String.append (fmt (Song.album song))
      (String.append " ("
      (String.append printable
      (String.append ")"
      (String.append nl nl)))))))))))))%res.

(** [f"{i+1}. **{song.title}** - *{song.artist}*\n{song.album}
    ({song.duration_printable})\n\n"] *)
Definition queue_line (i : nat) (song : Song.t) : result string :=
  (let? printable := Song_duration_printable song in
   Ok (String.append (str (Z.of_nat i + 1))
      (String.append ". **"
      (String.append (fmt (Song.title song))
      (String.append "** - *"
      (String.append (fmt (Song.artist song))
      (String.append "*"
      (String.append nl
      (String.append (fmt (Song.album song))
      (String.append " ("
      (String.append printable
      (String.append ")"
      (String.append nl nl)))))))))))))%res.

(** [f"**And {remaining} more...**"] *)
Definition and_more (remaining : nat) : string :=
  String.append "**And "
    (String.append (str (Z.of_nat remaining)) " more...**").

(** [for i, song in enumerate(queue)], from index [i] on; [len_queue] is
    [len(queue)]. *)
Fixpoint show_queue_loop (h : list Song.t) (len_queue i : nat)
    (rest : list (option nat)) (output : string) : result string :=
  match rest with
  | [] => Ok output
  | slot :: rest' =>
      (let? song := attributes h slot in
       let? strtoadd := queue_line i song in
       if Nat.ltb (String.length (String.append output strtoadd)) 4083
       then show_queue_loop h len_queue (S i) rest' (String.append output strtoadd)
       else Ok (String.append output (and_more (len_queue - i))))%res
  end.

(** The [queue] command. *)
Definition show_queue (g : Guild) : result Guild :=
  (let queue := queue (player g) in
   let? output :=
     match current_song (player g) with
     | Some l =>
         let? song := attributes (heap g) (Some l) in
         let? text := now_playing_text song in
         Ok (String.append "" text)
     | None => Ok ""
     end in
   let? output := show_queue_loop (heap g) (length queue) 0 queue output in
   let output :=
     if String.eqb output "" then "Queue is empty!" else output in
   Ok (SysMsg_msg "Queue" (Some output) g))%res.
End ShowQueue.

(** The [clear] command; [display_name] is [ctx.author.display_name]. *)
Definition clear_queue (display_name : string) (g : Guild) : Guild :=
  let g1 :=
    set_player {| queue := []; current_song := current_song (player g) |} g in
  SysMsg_msg (String.append display_name " cleared the queue") None g1.

(** ** Search results as a selection embed ([ui.py]) *)

(** What [parse_search_as_track_selection_embed] reads of a song, for
    songs whose tags are strings, as the annotations of [Song] say:
    title, artist, album and the printable duration. *)
Record Tags : Type := {
  tag_title : string;
  tag_artist : string;
  tag_album : string;
  tag_duration : string
}.

(** [s[:k]]: the first [k] characters, or for a negative [k] all but the
    last [-k]. *)
Definition py_slice_to (s : string) (k : Z) : string :=
  substring 0
    (if (k <? 0)%Z then Z.to_nat (Z.of_nat (String.length s) + k)
     else Z.to_nat k)
    s.

(** [(song.album[:68] + "...") if len(song.album) > 68 else song.album] *)
Definition trim_album (album : string) : string :=
  if Nat.ltb 68 (String.length album)
  then String.append (py_slice_to album 68) "..."
  else album.

(** The first line's tags: when title, " - " and artist together exceed
    71 characters, the tag that compares greater as a string is cut by
    the slice [[:(68 - top_str_length)]] and gets "...". *)
Definition trim_top (title artist : string) : string * string :=
  let top_str_length :=
    String.length (String.append title (String.append " - " artist)) in
  if Nat.ltb 71 top_str_length then
    if String.ltb artist title
    then (String.append
            (py_slice_to title (68 - Z.of_nat top_str_length)) "...",
          artist)
    else (title,
          String.append
            (py_slice_to artist (68 - Z.of_nat top_str_length)) "...")
  else (title, artist).

(** [f"**{tr_title}** - *{tr_artist}* \n*{tr_album}*
    ({song.duration_printable})\n\n"] *)
Definition selection_entry (song : Tags) : string :=
  let tr_album := trim_album (tag_album song) in
  let (tr_title, tr_artist) := trim_top (tag_title song) (tag_artist song) in
  String.append "**"
    (String.append tr_title
    (String.append "** - *"
    (String.append tr_artist
    (String.append "* "
    (String.append nl
    (String.append "*"
    (String.append tr_album
    (String.append "* ("
    (String.append (tag_duration song)
    (String.append ")"
    (String.append nl nl))))))))))).

Definition parse_search_as_track_selection_embed
    (results : list Tags) (query : string) (page_num : Z) : Embed :=
  let options_str :=
    fold_left (fun acc song => String.append acc (selection_entry song))
      results "" in
  let options_str :=
    String.append options_str
      (String.append "Current page: " (str page_num)) in
  {| title := String.append "Results for: " query;
     description := Some options_str |}.

(** * Vocabulary of the properties *)

(** The codes the error taxonomy calls fatal. *)
Definition fatal_codes : list Z := [0; 10; 20; 30; 40; 41; 50; 60]%Z.

Definition not_found_warning (err_code : json) : LogRecord :=
  {| levelname := "WARNING";
     msg := "Subsonic API request responded with error code %s: %s";
     args := [err_code; JStr "The requested data was not found."] |}.

Definition with_warning (c : Z) (w : World) : World :=
  {| globalsession := globalsession w; network := network w;
     requests := requests w; files := files w;
     log := log w ++ [not_found_warning (JNum c)] |}.


(** A body that is an envelope with a status other than "ok" and the
    numeric error code [c]. *)
Definition error_body (body : json) (c : Z) : Prop :=
  exists sr st err,
    getitem body "subsonic-response" = Ok sr /\
    getitem sr "status" = Ok st /\
    is_str "ok" st = false /\
    getitem sr "error" = Ok err /\
    getitem err "code" = Ok (JNum c).


Definition cover_path (cover_id : string) : string :=
  String.append "cache/" (String.append cover_id ".jpg").

Definition fallback_path : string := "resources/cover_not_found.jpg".

Definition cached (path : string) (w : World) : bool :=
  existsb (fun f => String.eqb (fst f) path) (files w).



(** What a queue slot denotes: the attribute values of the [Song] it
    refers to ([None] for Python's [None]). *)
Definition value_of (h : list Song.t) (o : option nat) : option Song.t :=
  match o with
  | Some l => h !! l
  | None => None
  end.

(** A slot refers to an object that exists. *)
Definition valid (h : list Song.t) (o : option nat) : Prop :=
  match o with
  | Some l => l < length h
  | None => True
  end.

(** A slot refers to an object created after the heap had [n] objects. *)
Definition fresh (n : nat) (o : option nat) : Prop :=
  match o with
  | Some l => n <= l
  | None => True
  end.

(** Every copy recorded in [memo] exists and holds the values of its
    original. *)
Definition memo_ok (h : list Song.t) (memo : list (nat * nat)) : Prop :=
  forall l l', (l, l') ∈ memo -> l' < length h /\ h !! l' = h !! l.

Definition fresh_or_memo (n : nat) (memo : list (nat * nat))
    (o : option nat) : Prop :=
  match o with
  | Some l' => n <= l' \/ exists l, (l, l') ∈ memo
  | None => True
  end.

Definition ticks (n : nat) : list event := replicate n Tick.

(** The player after the listener's hard reset. *)
Definition reset (g : Guild) : Guild :=
  {| heap := heap g; player := {| queue := []; current_song := None |};
     voice_client := None; sent := sent g |}.


(** The integer a decimal string denotes. *)
Definition decode (s : string) : option Z :=
  Z.of_int <$> NilZero.int_of_string s.

Definition is_object (j : json) : Prop :=
  match j with
  | JObj _ => True
  | _ => False
  end.

(** A computation that leaves the record of requests, the network
    script and the files as they are. *)
Definition quiet {A} (m : M A) : Prop :=
  forall w,
    requests (snd (m w)) = requests w /\
    network (snd (m w)) = network w /\
    files (snd (m w)) = files w.

Definition error_record (fmt : string) : LogRecord :=
  {| levelname := "ERROR"; msg := fmt; args := [] |}.

(** 1 for an argument that is not [None]. *)
Definition given {A} (o : option A) : nat :=
  match o with
  | Some _ => 1
  | None => 0
  end.

(** An update after which the bot's channel has exactly one member. *)
Definition is_alone_update (e : event) : bool :=
  match e with
  | VoiceStateUpdate 1 => true
  | _ => false
  end.

(** How many updates of a trace leave exactly one member. *)
Definition triggers (es : list event) : nat :=
  length (List.filter is_alone_update es).


Section RequestVocabulary.
Variable env : Env.






Definition cover_request (cover_id : string) (size : Z) : Request :=
  {| req_url := endpoint env "/rest/getCoverArt";
     req_params :=
       dict_union (SUBSONIC_REQUEST_PARAMS env)
         [("id", JStr cover_id); ("size", JStr (str size))] |}.
End RequestVocabulary.

(** ** Sample inputs *)

Definition env0 : Env :=
  {| SUBSONIC_SERVER := "http://music.example";
     SUBSONIC_USER := "bot";
     SUBSONIC_PASSWORD := "secret" |}.

(** The envelope of a failed request. *)
Definition failed_envelope (c : Z) (m : string) : json :=
  JObj [("subsonic-response",
         JObj [("status", JStr "failed");
               ("version", JStr "1.16.1");
               ("error", JObj [("code", JNum c); ("message", JStr m)])])].

(** The envelope of a successful request with one payload entry. *)
Definition ok_envelope (key : string) (payload : json) : json :=
  JObj [("subsonic-response",
         JObj [("status", JStr "ok");
               ("version", JStr "1.16.1");
               (key, payload)])].

Definition http_ok (body : json) : ClientResponse :=
  {| status := 200; json_body := Some body; content := "" |}.

(** A fresh process talking to a server that gives these answers. *)
Definition serving (answers : list ClientResponse) : World :=
  {| globalsession := false; network := map Some answers; requests := [];
     files := []; log := [] |}.

Definition wrong_password : json :=
  failed_envelope 40 "Wrong username or password".

Definition not_found : json :=
  failed_envelope 70 "Artist not found".

Definition song_json (id name : string) : json :=
  JObj [("id", JStr id); ("title", JStr name); ("duration", JNum 215)].

Definition album_json (id name : string) (songs : list json) : json :=
  JObj [("id", JStr id); ("name", JStr name); ("song", JList songs)].

Definition artist_search_answer : ClientResponse :=
  http_ok (ok_envelope "searchResult3"
             (JObj [("artist", JList [JObj [("id", JStr "ar-1");
                                            ("name", JStr "Moondog")]])])).




(** A process that has the cover of album 1 on disk. *)
Definition cached_world : World :=
  {| globalsession := false; network := []; requests := [];
     files := [("cache/al-1.jpg", "JFIF")]; log := [] |}.

Definition song_0 : Song.t :=
  Song.mk (JStr "tr-1") (JStr "Lament I") (JStr "Moondog") (JStr "Moondog")
    (JStr "al-1") (JNum 215).

Definition song_1 : Song.t :=
  Song.mk (JStr "tr-2") (JStr "Bird's Lament") (JStr "Moondog")
    (JStr "Moondog") (JStr "al-1") (JNum 103).

(** A guild playing nothing, with one track queued. *)
Definition one_song_guild : Guild :=
  {| heap := [song_0];
     player := {| queue := [Some 0]; current_song := None |};
     voice_client := Some {| playing := false |};
     sent := [] |}.

(** A guild playing [song_0] with [song_1] queued. *)
Definition playing_guild : Guild :=
  {| heap := [song_0; song_1];
     player := {| queue := [Some 1]; current_song := Some 0 |};
     voice_client := Some {| playing := true |};
     sent := [] |}.

(** The bot in a channel with one listener, at time 0. *)
Definition bot0 : Bot :=
  {| guild := playing_guild; members := 2; now := 0; sleeping := [];
     disconnects := 0 |}.



(** [format(value)] on the tags of the samples: a string as it is, an
    integer in decimal. *)
Definition format_tag (j : json) : string :=
  match j with
  | JStr s => s
  | JNum n => str n
  | _ => ""
  end.


(** A playlist the server lists without songs. *)
Definition empty_playlist_answer : ClientResponse :=
  http_ok (ok_envelope "playlist"
             (JObj [("id", JStr "pl-1"); ("name", JStr "Night"); ("songCount", JNum 0)])).

Definition song_search_answer : ClientResponse :=
  http_ok (ok_envelope "searchResult3"
             (JObj [("song", JList [song_json "tr-1" "Lament I"])])).

(** Nobody is left alone: a second listener joins, then a third. *)
Definition busy_channel : list event :=
  [VoiceStateUpdate 3] ++ ticks 12 ++ [VoiceStateUpdate 2] ++ ticks 12.

Definition long_title : string :=
  "The Overture to the Opera in Three Acts and Seven Scenes, with Interludes".

(** * Properties *)

(** ** Metadata objects *)

Lemma get_or_dict (d : list (string * json)) (k : string) (dflt : json) :
  get_or (JObj d) k dflt = Ok (default dflt (dict_get k d)).
Proof.
  unfold get_or, contains, getitem, rbind.
  destruct (dict_get k d) as [v|]; reflexivity.
Qed.


(** ** The error check *)

Section ErrorCheck.
Lemma match_err_code_fatal (c : Z) :
  c ∈ fatal_codes ->
  exists m, (c, m) ∈ fatal_cases /\
            forall w, match_err_code (JNum c) w = (Raise (APIError (JNum c) m), w).
Proof.
  unfold fatal_codes. rewrite !elem_of_cons, elem_of_nil.
  intros H. unfold fatal_cases.
  repeat (destruct H as [->|H];
          [eexists; split; [|intros w; reflexivity];
           repeat first [apply list_elem_of_here | apply list_elem_of_further]|]).
  destruct H.
Qed.

Lemma match_err_code_other (c : Z) (w : World) :
  c ∉ fatal_codes ->
  match_err_code (JNum c) w =
    if (c =? 70)%Z
    then (Ok true,
          {| globalsession := globalsession w; network := network w;
             requests := requests w; files := files w;
             log := log w ++ [not_found_warning (JNum c)] |})
    else (Raise (APIError (JNum c) "Unknown Error Code."), w).
Proof.
  unfold fatal_codes. rewrite !not_elem_of_cons. intros H.
  unfold match_err_code, fatal_cases. simpl.
  destruct_and!.
  repeat match goal with
         | Hk : c ≠ ?k |- context [(c =? ?k)%Z] =>
             rewrite (proj2 (Z.eqb_neq c k) Hk)
         end.
  destruct (c =? 70)%Z; reflexivity.
Qed.

Lemma fatal_cases_message (c : Z) (m : string) :
  (c, m) ∈ fatal_cases -> m <> "Unknown Error Code.".
Proof.
  unfold fatal_cases. rewrite !elem_of_cons, elem_of_nil. intros H.
  repeat (destruct H as [H|H]; [inversion H; subst; discriminate|]).
  destruct H.
Qed.

Lemma check_parsed_status (response sr st : json) (w : World) :
  getitem response "subsonic-response" = Ok sr ->
  getitem sr "status" = Ok st ->
  check_parsed response w =
    if is_str "ok" st then (Ok false, w)
    else
      match rbind (getitem sr "error") (fun err => getitem err "code") with
      | Ok err_code => match_err_code err_code w
      | Raise e => (Raise e, w)
      end.
Proof.
  intros Hsr Hst. unfold check_parsed, bind, lift, ret.
  rewrite Hsr, Hst. destruct (is_str "ok" st); [reflexivity|].
  destruct (getitem sr "error") as [err|e]; simpl; [|reflexivity].
  destruct (getitem err "code"); reflexivity.
Qed.

(** C2.  On an envelope whose status is "ok" the check returns [False]
    and raises nothing.  On any other status, with numeric error code
    [c]: the check raises [APIError] with [c] and the message of that
    code exactly when [c] is one of 0, 10, 20, 30, 40, 41, 50, 60; for
    70 it logs a warning and returns [True] without raising; for every
    other code it raises [APIError] with [c] and "Unknown Error Code.". *)
Theorem check_subsonic_error_taxonomy
    (response sr st : json) (w : World) :
  getitem response "subsonic-response" = Ok sr ->
  getitem sr "status" = Ok st ->
  (st = JStr "ok" ->
   check_subsonic_error (Parsed response) w = (Ok false, w)) /\
  (st <> JStr "ok" ->
   forall (err : json) (c : Z),
     getitem sr "error" = Ok err ->
     getitem err "code" = Ok (JNum c) ->
     let outcome := check_subsonic_error (Parsed response) w in
     (c ∈ fatal_codes <->
      exists m, m <> "Unknown Error Code." /\
                outcome = (Raise (APIError (JNum c) m), w)) /\
     (c ∈ fatal_codes ->
      exists m, (c, m) ∈ fatal_cases /\
                outcome = (Raise (APIError (JNum c) m), w)) /\
     (c = 70%Z ->
      fst outcome = Ok true /\
      log (snd outcome) = log w ++ [not_found_warning (JNum 70)]) /\
     (c ∉ fatal_codes -> c <> 70%Z ->
      outcome = (Raise (APIError (JNum c) "Unknown Error Code."), w))).
Proof.
  intros Hsr Hst. simpl. rewrite (check_parsed_status _ _ _ _ Hsr Hst).
  split.
  - intros ->. reflexivity.
  - intros Hne err c Herr Hcode.
    assert (is_str "ok" st = false) as ->.
    { destruct st; try reflexivity. simpl.
      destruct (String.eqb_spec s "ok"); [subst; congruence|reflexivity]. }
    rewrite Herr. simpl. rewrite Hcode.
    assert (Hfatal : c ∈ fatal_codes ->
              exists m, (c, m) ∈ fatal_cases /\
                match_err_code (JNum c) w = (Raise (APIError (JNum c) m), w)).
    { intros Hin. destruct (match_err_code_fatal c Hin) as (m & Hm & Hall).
      eauto. }
    split; [split|split; [exact Hfatal|split]].
    + intros Hin. destruct (Hfatal Hin) as (m & Hm & ->).
      exists m. split; [eapply fatal_cases_message; eauto|reflexivity].
    + intros (m & Hm & Hout).
      destruct (decide (c ∈ fatal_codes)) as [|Hnot]; [assumption|].
      rewrite (match_err_code_other _ _ Hnot) in Hout.
      destruct (c =? 70)%Z; [discriminate|]. congruence.
    + intros ->.
      rewrite match_err_code_other
        by (unfold fatal_codes; rewrite !not_elem_of_cons, elem_of_nil;
            repeat split; try discriminate; tauto).
      simpl. split; reflexivity.
    + intros Hnot Hne70. rewrite (match_err_code_other _ _ Hnot).
      destruct (Z.eqb_spec c 70); [contradiction|reflexivity].
Qed.
End ErrorCheck.

(** ** Pagination *)

Section Pagination.
Context {A : Type}.
Implicit Types (pages : list (list (Entry A))) (items : list A).










End Pagination.

(** ** The music commands *)

(** C1.  With a voice client connected and track [t] current, [stop]
    halts the sink and clears the current track, but what it puts at the
    head of the queue is [None], read back from [current_song] after it
    was cleared: the stopped track [t] is not at queue position 0. *)
Theorem stop_requeues_None
    (h : list Song.t) (q : list (option nat)) (t : nat)
    (vc : VoiceClient) (s : list Embed) :
  let g := {| heap := h; player := {| queue := q; current_song := Some t |};
              voice_client := Some vc; sent := s |} in
  player (stop g) = {| queue := None :: q; current_song := None |} /\
  voice_client (stop g) = Some {| playing := false |} /\
  queue (player (stop g)) !! 0 = Some None /\
  queue (player (stop g)) !! 0 <> Some (Some t).
Proof.
  simpl. repeat split. discriminate.
Qed.

Section Shuffle.
Implicit Types (h : list Song.t) (q r : list (option nat))
  (memo : list (nat * nat)).

Lemma value_of_app h ext o :
  valid h o -> value_of (h ++ ext) o = value_of h o.
Proof.
  destruct o as [l|]; simpl; [|reflexivity].
  intros Hl. now apply lookup_app_l.
Qed.

Lemma valid_app h ext o : valid h o -> valid (h ++ ext) o.
Proof.
  destruct o as [l|]; simpl; [|trivial]. rewrite length_app. lia.
Qed.

Lemma memo_ok_app h ext memo : memo_ok h memo -> memo_ok (h ++ ext) memo.
Proof.
  intros H l l' Hin. destruct (H l l' Hin) as [Hl' Heq].
  split; [rewrite length_app; lia|].
  destruct (lookup_lt_is_Some_2 h l' Hl') as [s Hs].
  rewrite (lookup_app_l_Some _ _ _ _ Hs).
  symmetry. apply lookup_app_l_Some. congruence.
Qed.

Lemma deepcopy_spec q :
  forall memo h,
    memo_ok h memo -> Forall (valid h) q ->
    exists ext r,
      deepcopy memo h q = (h ++ ext, r) /\
      map (value_of (h ++ ext)) r = map (value_of h) q /\
      Forall (fresh_or_memo (length h) memo) r.
Proof.
  induction q as [|o q IH]; intros memo h Hmemo Hq.
  - exists [], []. simpl. rewrite app_nil_r. auto.
  - apply Forall_cons in Hq as [Ho Hq]. destruct o as [l|]; simpl.
    + destruct (list_find (fun m => fst m = l) memo) as [[i [l0 l']]|] eqn:Hfind.
      * apply list_find_Some in Hfind as (Hi & Hl0 & _). simpl in Hl0. subst l0.
        assert (Hin : (l, l') ∈ memo) by (apply list_elem_of_lookup; eauto).
        destruct (Hmemo _ _ Hin) as [Hl' Heq].
        destruct (IH memo h Hmemo Hq) as (ext & r & -> & Hval & Hfresh).
        exists ext, (Some l' :: r). split; [reflexivity|]. split.
        -- simpl. rewrite Hval. f_equal.
           rewrite lookup_app_l by assumption. exact Heq.
        -- constructor; [right; eauto|assumption].
      * simpl in Ho. destruct (lookup_lt_is_Some_2 h l Ho) as [s Hs].
        rewrite Hs.
        destruct (IH ((l, length h) :: memo) (h ++ [s])) as
          (ext & r & Hcopy & Hval & Hfresh).
        -- intros a a' Ha. apply elem_of_cons in Ha as [Ha|Ha].
           ++ injection Ha as -> ->. rewrite length_app. simpl.
              split; [lia|]. rewrite list_lookup_middle by reflexivity.
              symmetry. now apply lookup_app_l_Some.
           ++ now apply (memo_ok_app h [s] memo Hmemo).
        -- eapply Forall_impl; [exact Hq|]. intros o. apply valid_app.
        -- rewrite Hcopy. rewrite <- app_assoc in *.
           exists ([s] ++ ext), (Some (length h) :: r).
           split; [reflexivity|]. split.
           ++ simpl. f_equal.
              ** now apply list_lookup_middle.
              ** etransitivity; [exact Hval|]. apply map_ext_Forall.
                 eapply Forall_impl; [exact Hq|].
                 intros o. apply value_of_app.
           ++ constructor; [left; lia|].
              eapply Forall_impl; [exact Hfresh|].
              intros [l'|]; simpl; [|trivial].
              rewrite length_app. simpl.
              intros [Hge|[a Ha]]; [left; lia|].
              apply elem_of_cons in Ha as [Ha|Ha].
              ** injection Ha as -> ->. left. lia.
              ** right. eauto.
    + destruct (IH memo h Hmemo Hq) as (ext & r & -> & Hval & Hfresh).
      exists ext, (None :: r). split; [reflexivity|]. split.
      * simpl. now rewrite Hval.
      * constructor; [exact I|assumption].
Qed.

(** The loop empties [temporaryqueue] and leaves in [shuffledqueue]
    what it held, followed by the former elements of
    [temporaryqueue] in some order. *)
Lemma shuffle_loop_spec {A} (rnd : nat -> nat) (len : nat) :
  forall (calls : nat) (temp acc : list A),
    length temp = len ->
    exists out,
      shuffle_loop len rnd calls temp acc = Ok ([], out) /\
      out ≡ₚ acc ++ temp.
Proof.
  induction len as [|len IH]; intros calls temp acc Hlen.
  - destruct temp; [|discriminate]. exists acc. simpl.
    now rewrite app_nil_r.
  - cbn [shuffle_loop]. unfold randint.
    set (i := 0 + rnd calls mod (length temp - 1 - 0 + 1)).
    assert (Hi : i < length temp).
    { subst i. rewrite Hlen. simpl.
      replace (len - 0 - 0 + 1) with (S len) by lia.
      apply Nat.mod_upper_bound. lia. }
    destruct (lookup_lt_is_Some_2 temp i Hi) as [x Hx]. rewrite Hx.
    destruct (IH (S calls) (delete i temp) (acc ++ [x])) as (out & -> & Hperm).
    { rewrite length_delete by eauto. lia. }
    exists out. split; [reflexivity|].
    rewrite Hperm, <- app_assoc. simpl.
    apply Permutation_app_head. symmetry. now apply delete_Permutation.
Qed.

(** C4, as the code has it.  On a queue whose slots refer to existing
    objects, [shuffle] succeeds; the new queue holds the same attribute
    values with the same multiplicities, in some order; every [Song]
    in it is a new object, a copy made by [deepcopy], and no object
    that existed before is changed; the current track is the same; and
    on a queue of at most one element the values are in the same
    order. *)
Theorem shuffle_permutes_copies (rnd : nat -> nat) (g : Guild) :
  Forall (valid (heap g)) (queue (player g)) ->
  exists g' ext,
    shuffle rnd g = Ok g' /\
    map (value_of (heap g')) (queue (player g'))
      ≡ₚ map (value_of (heap g)) (queue (player g)) /\
    Forall (fresh (length (heap g))) (queue (player g')) /\
    heap g' = heap g ++ ext /\
    current_song (player g') = current_song (player g) /\
    (length (queue (player g)) <= 1 ->
     map (value_of (heap g')) (queue (player g'))
       = map (value_of (heap g)) (queue (player g))).
Proof.
  intros Hq. unfold shuffle.
  destruct (deepcopy_spec (queue (player g)) [] (heap g))
    as (ext & temp & -> & Hval & Hfresh); [|assumption|].
  { intros l l' Hin. now apply elem_of_nil in Hin. }
  destruct (shuffle_loop_spec rnd (length temp) 0 temp [] eq_refl)
    as (out & -> & Hperm).
  simpl in Hperm.
  eexists. exists ext. split; [reflexivity|]. simpl.
  assert (Hfresh' : Forall (fresh (length (heap g))) temp).
  { eapply Forall_impl; [exact Hfresh|]. intros [l'|]; simpl; [|trivial].
    intros [Hge|[a Ha]]; [assumption|]. now apply elem_of_nil in Ha. }
  split; [rewrite <- Hval; now apply Permutation_map|].
  split; [now rewrite Hperm|].
  split; [reflexivity|]. split; [reflexivity|].
  intros Hlen. rewrite <- Hval. f_equal.
  assert (Hlt : length temp <= 1).
  { rewrite <- (length_map (value_of (heap g ++ ext))), Hval, length_map.
    exact Hlen. }
  destruct temp as [|x [|y temp]]; simpl in Hlt.
  - now apply Permutation_nil_r.
  - now apply Permutation_singleton_r.
  - lia.
Qed.
End Shuffle.

(** ** The request functions *)

(** *** Sample inputs *)

Section Requests.
Variable env : Env.

Lemma raise_for_status_ok (response : ClientResponse) (w : World) :
  (status response < 400)%Z -> raise_for_status response w = (Ok tt, w).
Proof.
  intros H. unfold raise_for_status.
  destruct (Z.leb_spec 400 (status response)); [lia|reflexivity].
Qed.

Lemma response_json_Some (response : ClientResponse) (body : json) :
  json_body response = Some body -> response_json response = Ok body.
Proof. unfold response_json. now intros ->. Qed.


(** *** The discography *)





End Requests.

Section CoverArtAndAutoplay.
Variable env : Env.

Lemma check_parsed_error (body : json) (c : Z) (w : World) :
  error_body body c ->
  check_parsed body w = match_err_code (JNum c) w.
Proof.
  intros (sr & st & err & Hsr & Hst & Hok & Herr & Hcode).
  rewrite (check_parsed_status _ _ _ _ Hsr Hst), Hok, Herr. simpl.
  now rewrite Hcode.
Qed.

(** C6, as the code has it.  A cover already in the cache directory is
    answered with its path, and the world is untouched: no request is
    sent.  On a miss one request is sent.  An answer that is not JSON
    is stored and its path returned when the HTTP status is 200, and
    gives the fallback path otherwise; an error envelope with code 70
    gives the fallback path; in both fallback cases no file is
    written.  An error envelope with a fatal code raises [APIError]
    out of the function. *)
Theorem get_album_art_file_outcomes (cover_id : string) (size : Z) (w : World) :
  (cached (cover_path cover_id) w = true ->
   get_album_art_file env cover_id size w = (Ok (cover_path cover_id), w)) /\
  (cached (cover_path cover_id) w = false ->
   forall (response : ClientResponse) (rest : list (option ClientResponse)),
     network w = Some response :: rest ->
     let out := get_album_art_file env cover_id size w in
     requests (snd out) = requests w ++ [cover_request env cover_id size] /\
     (json_body response = None -> status response = 200%Z ->
      fst out = Ok (cover_path cover_id) /\
      cached (cover_path cover_id) (snd out) = true) /\
     (json_body response = None -> status response <> 200%Z ->
      fst out = Ok fallback_path /\ files (snd out) = files w) /\
     (forall body, json_body response = Some body -> error_body body 70 ->
      fst out = Ok fallback_path /\ files (snd out) = files w) /\
     (forall body c, json_body response = Some body -> error_body body c ->
      c ∈ fatal_codes ->
      exists m, (c, m) ∈ fatal_cases /\
                fst out = Raise (APIError (JNum c) m))).
Proof.
  unfold get_album_art_file, bind, path_exists, cached, cover_path. split.
  - intros ->. reflexivity.
  - intros -> response rest Hnet.
    unfold get_session, session_get. simpl. rewrite Hnet.
    unfold check_subsonic_error, response_json.
    split; [|split; [|split; [|split]]].
    + destruct (json_body response) as [body|]; simpl.
      * match goal with
        | |- context [check_parsed body ?w0] =>
            assert (Hreq : requests (snd (check_parsed body w0)) = requests w0)
        end.
        { unfold check_parsed, bind, lift, ret.
          repeat match goal with
                 | |- context [match ?x with _ => _ end] => destruct x; simpl; try reflexivity
                 end.
          unfold match_err_code. 
          repeat match goal with
                 | |- context [match ?x with _ => _ end] => destruct x; simpl; try reflexivity
                 end. }
        match goal with
        | |- context [check_parsed body ?w0] =>
            destruct (check_parsed body w0) as [[[|]|] w0'] eqn:Hcheck
        end; simpl in *; try assumption.
        destruct (status response =? 200)%Z; simpl; assumption.
      * destruct (status response =? 200)%Z; reflexivity.
    + intros -> ->. simpl. rewrite String.eqb_refl. split; reflexivity.
    + intros -> Hne. simpl.
      destruct (Z.eqb_spec (status response) 200); [contradiction|].
      split; reflexivity.
    + intros body -> Hbody. rewrite (check_parsed_error _ _ _ Hbody).
      split; reflexivity.
    + intros body c -> Hbody Hc. rewrite (check_parsed_error _ _ _ Hbody).
      destruct (match_err_code_fatal c Hc) as (m & Hm & Hraise).
      exists m. split; [exact Hm|]. now rewrite Hraise.
Qed.

(** *** The autoplay sources *)

Lemma match_err_code_70 (w : World) :
  match_err_code (JNum 70) w = (Ok true, with_warning 70 w).
Proof. reflexivity. Qed.

(** The check never returns [False] on an error code. *)
Lemma match_err_code_cases (c : Z) (w : World) :
  (exists w', match_err_code (JNum c) w = (Ok true, w')) \/
  (exists e, match_err_code (JNum c) w = (Raise e, w)).
Proof.
  unfold match_err_code.
  destruct (find _ fatal_cases) as [[? ?]|]; [right; eexists; reflexivity|].
  destruct (py_eq_int (JNum c) 70);
    [left|right]; eexists; reflexivity.
Qed.

(** C7, as the code has it.  [get_similar_songs] with [None] for the
    track id returns the empty list and sends nothing.  When the HTTP
    exchange succeeds: on an error envelope with code 70 both
    functions return the empty list; on an "ok" envelope whose
    [similarSongs] is the empty object [get_similar_songs] returns the
    empty list; on an error envelope with a fatal code both functions
    raise [APIError]. *)
Theorem autoplay_sources_outcomes
    (size : option Z) (genre : option string) (from_year to_year : option Z)
    (music_folder_id : option string) (song_id : json) (count : Z)
    (w : World) (response : ClientResponse)
    (rest : list (option ClientResponse)) (body : json) :
  network w = Some response :: rest ->
  (status response < 400)%Z ->
  json_body response = Some body ->
  song_id <> JNull ->
  let random :=
    get_random_songs env size genre from_year to_year music_folder_id w in
  let similar := get_similar_songs env song_id count w in
  get_similar_songs env JNull count w = (Ok [], w) /\
  (error_body body 70 -> fst random = Ok [] /\ fst similar = Ok []) /\
  (forall sr,
     getitem body "subsonic-response" = Ok sr ->
     getitem sr "status" = Ok (JStr "ok") ->
     getitem sr "similarSongs" = Ok (JObj []) ->
     fst similar = Ok []) /\
  (forall c, error_body body c -> c ∈ fatal_codes ->
     exists m, (c, m) ∈ fatal_cases /\
               fst random = Raise (APIError (JNum c) m) /\
               fst similar = Raise (APIError (JNum c) m)).
Proof.
  intros Hnet Hstatus Hbody Hid random similar.
  assert (Hrandom : forall c, error_body body c ->
            exists w1, fst random = fst (bind (match_err_code (JNum c))
                                  (fun err => if err then ret [] else raise TypeError) w1)).
  { intros c Hc. subst random.
    unfold get_random_songs, bind, get_session, session_get. simpl.
    rewrite Hnet, raise_for_status_ok by assumption.
    unfold lift. rewrite (response_json_Some _ _ Hbody).
    unfold check_subsonic_error. rewrite (check_parsed_error _ _ _ Hc).
    match goal with
    | |- context [match_err_code (JNum c) ?w0] =>
        exists w0; destruct (match_err_code_cases c w0) as [[? ->]|[? ->]]
    end; reflexivity. }
  assert (Hsimilar : forall c, error_body body c ->
            exists w1, fst similar = fst (bind (match_err_code (JNum c))
                                  (fun err => if err then ret [] else raise TypeError) w1)).
  { intros c Hc. subst similar.
    unfold get_similar_songs. destruct song_id; try contradiction;
    unfold bind, get_session, session_get; simpl;
    rewrite Hnet, raise_for_status_ok by assumption;
    unfold lift; rewrite (response_json_Some _ _ Hbody);
    unfold check_subsonic_error; rewrite (check_parsed_error _ _ _ Hc);
    match goal with
    | |- context [match_err_code (JNum c) ?w0] =>
        exists w0; destruct (match_err_code_cases c w0) as [[? ->]|[? ->]]
    end; reflexivity. }
  split; [reflexivity|]. split; [|split].
  - intros H70. destruct (Hrandom _ H70) as [w1 ->].
    destruct (Hsimilar _ H70) as [w2 ->].
    unfold bind. rewrite !match_err_code_70. split; reflexivity.
  - intros sr Hsr Hst Hsim. subst similar.
    unfold get_similar_songs. destruct song_id; try contradiction;
    unfold bind, get_session, session_get; simpl;
    rewrite Hnet, raise_for_status_ok by assumption;
    unfold lift; rewrite (response_json_Some _ _ Hbody);
    unfold check_subsonic_error;
    rewrite (check_parsed_status _ _ _ _ Hsr Hst); simpl;
    rewrite Hsr, Hsim; reflexivity.
  - intros c Hc Hfatal. destruct (Hrandom _ Hc) as [w1 ->].
    destruct (Hsimilar _ Hc) as [w2 ->]. unfold bind.
    destruct (match_err_code_fatal c Hfatal) as (m & Hm & Hraise).
    rewrite !Hraise. exists m. auto.
Qed.
End CoverArtAndAutoplay.

(** ** The voice-state listener *)

Section Listener.
Implicit Types (b : Bot) (g : Guild).


Lemma run_cons (e : event) (es : list event) b :
  run (e :: es) b = run es (step e b).
Proof. reflexivity. Qed.






End Listener.

(** ** The properties on sample inputs *)

(** [stop] on a guild that plays [song_0] with [song_1] queued: [None]
    heads the queue and [song_0] is referred to nowhere. *)
Example stop_playing_guild :
  player (stop playing_guild)
    = {| queue := [None; Some 1]; current_song := None |}.
Proof. reflexivity. Qed.

(** An "ok" answer without songs: [get_random_songs] looks up ["song"]
    without the guard [get_similar_songs] has. *)
Example get_random_songs_without_songs :
  fst (get_random_songs env0 None None None None None
         (serving [http_ok (ok_envelope "randomSongs" (JObj []))]))
    = Raise (KeyError "song") /\
  fst (get_similar_songs env0 (JStr "tr-1") 1
         (serving [http_ok (ok_envelope "similarSongs" (JObj []))]))
    = Ok [].
Proof. split; reflexivity. Qed.

Lemma check_subsonic_error_taxonomy_witness :
  let sr := JObj [("status", JStr "failed"); ("version", JStr "1.16.1");
                  ("error", JObj [("code", JNum 40);
                                  ("message", JStr "Wrong username or password")])] in
  getitem wrong_password "subsonic-response" = Ok sr /\
  getitem sr "status" = Ok (JStr "failed") /\
  exists m, (40%Z, m) ∈ fatal_cases /\
            check_subsonic_error (Parsed wrong_password) (serving [])
              = (Raise (APIError (JNum 40) m), serving []).
Proof.
  intros sr. split; [reflexivity|]. split; [reflexivity|].
  destruct (check_subsonic_error_taxonomy wrong_password sr (JStr "failed")
              (serving []) eq_refl eq_refl) as [_ Hfailed].
  destruct (Hfailed ltac:(discriminate) _ 40%Z eq_refl eq_refl)
    as (_ & Hfatal & _).
  apply Hfatal. unfold fatal_codes.
  repeat first [apply list_elem_of_here | apply list_elem_of_further].
Defined.


(** C4, as stated, fails: after [shuffle] the one queue slot refers to a
    new object (reference 1), not to the object that was queued
    (reference 0). *)
Lemma shuffle_identity_counterexample :
  match shuffle (fun _ => 0) one_song_guild with
  | Ok g' =>
      queue (player one_song_guild) = [Some 0] /\
      queue (player g') = [Some 1] /\
      heap g' = [song_0; song_0] /\
      ~ queue (player g') ≡ₚ queue (player one_song_guild)
  | Raise _ => False
  end.
Proof.
  simpl. repeat split.
  intros H. apply Permutation_singleton_inj in H. discriminate.
Qed.

Lemma shuffle_permutes_copies_witness :
  Forall (valid (heap playing_guild)) (queue (player playing_guild)) /\
  exists g' ext,
    shuffle (fun n => n) playing_guild = Ok g' /\
    map (value_of (heap g')) (queue (player g'))
      ≡ₚ map (value_of (heap playing_guild)) (queue (player playing_guild)) /\
    Forall (fresh (length (heap playing_guild))) (queue (player g')) /\
    heap g' = heap playing_guild ++ ext /\
    current_song (player g') = current_song (player playing_guild) /\
    (length (queue (player playing_guild)) <= 1 ->
     map (value_of (heap g')) (queue (player g'))
       = map (value_of (heap playing_guild)) (queue (player playing_guild))).
Proof.
  assert (H : Forall (valid (heap playing_guild)) (queue (player playing_guild))).
  { repeat constructor. }
  split; [exact H|]. exact (shuffle_permutes_copies (fun n => n) playing_guild H).
Defined.




(** C6, as stated, fails: when the fetch is answered with an error
    envelope that carries the fatal code 40, [get_album_art_file] does
    not return the fallback path, it raises. *)
Lemma get_album_art_file_counterexample :
  cached (cover_path "al-1") (serving [http_ok wrong_password]) = false /\
  fst (get_album_art_file env0 "al-1" 300 (serving [http_ok wrong_password]))
    = Raise (APIError (JNum 40) "Wrong username or password.").
Proof. split; reflexivity. Qed.

Lemma get_album_art_file_outcomes_witness :
  (cached (cover_path "al-1") cached_world = true /\
   get_album_art_file env0 "al-1" 300 cached_world
     = (Ok "cache/al-1.jpg", cached_world)) /\
  (cached (cover_path "al-9") (serving [http_ok not_found]) = false /\
   fst (get_album_art_file env0 "al-9" 300 (serving [http_ok not_found]))
     = Ok fallback_path).
Proof.
  split.
  - split; [reflexivity|].
    apply (proj1 (get_album_art_file_outcomes env0 "al-1" 300 cached_world)).
    reflexivity.
  - split; [reflexivity|].
    destruct (proj2 (get_album_art_file_outcomes env0 "al-9" 300
                       (serving [http_ok not_found]))
                eq_refl (http_ok not_found) [] eq_refl)
      as (_ & _ & _ & H70 & _).
    apply (H70 not_found eq_refl).
    do 3 eexists. repeat split; reflexivity.
Defined.

(** C7, as stated, fails: when the server reports the fatal code 40,
    both autoplay sources raise instead of returning an empty list. *)
Lemma autoplay_sources_counterexample :
  fst (get_similar_songs env0 (JStr "tr-1") 1 (serving [http_ok wrong_password]))
    = Raise (APIError (JNum 40) "Wrong username or password.") /\
  fst (get_random_songs env0 None None None None None
         (serving [http_ok wrong_password]))
    = Raise (APIError (JNum 40) "Wrong username or password.").
Proof. split; reflexivity. Qed.

Lemma autoplay_sources_outcomes_witness :
  network (serving [http_ok not_found]) = [Some (http_ok not_found)] /\
  fst (get_random_songs env0 (Some 5%Z) None None None None
         (serving [http_ok not_found])) = Ok [] /\
  fst (get_similar_songs env0 (JStr "tr-1") 1 (serving [http_ok not_found]))
    = Ok [].
Proof.
  split; [reflexivity|].
  destruct (autoplay_sources_outcomes env0 (Some 5%Z) None None None None
              (JStr "tr-1") 1 (serving [http_ok not_found])
              (http_ok not_found) [] not_found
              eq_refl ltac:(simpl; lia) eq_refl ltac:(discriminate))
    as (_ & H70 & _).
  apply H70. do 3 eexists. repeat split; reflexivity.
Defined.



(** * Further properties *)

(** ** Pagination: the layout of the pages *)

Section PageLayout.
Context {A : Type}.
Implicit Types (pages : list (list (Entry A))) (items : list A).









(** X4.  With zero items per page the constructor raises
    ZeroDivisionError; with a negative number it raises IndexError on a
    list that is not empty; in both cases the caller's list is
    untouched.  A negative number with an empty list gives a paginator
    without pages. *)
Theorem paginator_bad_page_size items (k : Z) :
  (k <= 0)%Z ->
  (k = 0%Z ->
   ListPaginator.__init__ items k = (Raise ZeroDivisionError, items)) /\
  (k <> 0%Z -> items <> [] ->
   ListPaginator.__init__ items k = (Raise IndexError, items)) /\
  (k <> 0%Z ->
   ListPaginator.__init__ (@nil A) k = (Ok (ListPaginator.mk [] k 0), [])).
Proof.
  intros Hk. split; [|split].
  - intros ->. reflexivity.
  - intros Hne Hitems. unfold ListPaginator.__init__.
    destruct (Z.eqb_spec k 0); [contradiction|].
    assert (Hq : (ListPaginator.ceil_div (Z.of_nat (length items)) k <= 0)%Z).
    { unfold ListPaginator.ceil_div.
      assert (0 <= - Z.of_nat (length items) / k)%Z; [|lia].
      rewrite <- Z.div_opp_opp by lia. rewrite Z.opp_involutive.
      apply Z.div_pos; lia. }
    rewrite Z2Nat.nonpos by exact Hq.
    destruct items as [|item items]; [contradiction|]. reflexivity.
  - intros Hne. unfold ListPaginator.__init__.
    destruct (Z.eqb_spec k 0); [contradiction|].
    unfold ListPaginator.ceil_div. cbn [length Z.of_nat Z.opp].
    rewrite Zdiv_0_l. reflexivity.
Qed.
End PageLayout.

(** ** Metadata objects: formats and constructors *)

Lemma length_append (s1 s2 : string) :
  String.length (String.append s1 s2) = String.length s1 + String.length s2.
Proof. induction s1 as [|c s1 IH]; simpl; [reflexivity|now rewrite IH]. Qed.

Lemma length_substring_0 (n : nat) (s : string) :
  n <= String.length s -> String.length (substring 0 n s) = n.
Proof.
  revert n. induction s as [|c s IH]; intros [|n] Hn; simpl in *;
    try reflexivity; try lia.
  rewrite IH by lia. reflexivity.
Qed.

Lemma decode_str (n : Z) : decode (str n) = Some n.
Proof.
  unfold decode, str. rewrite NilZero.isi.
  - simpl. now rewrite DecimalZ.of_to.
  - destruct n; simpl; try discriminate.
    intros [= H]. now apply DecimalPos.Unsigned.to_uint_nonnil in H.
  - destruct n; simpl; try discriminate.
    intros [= H]. now apply DecimalPos.Unsigned.to_uint_nonnil in H.
Qed.

Lemma format_02d_digit (n : Z) :
  (0 <= n < 10)%Z ->
  decode (format_02d n) = Some n /\ String.length (format_02d n) = 2.
Proof.
  intros Hn.
  assert (Hall : Forall (fun i => decode (format_02d (Z.of_nat i)) = Some (Z.of_nat i)
                                  /\ String.length (format_02d (Z.of_nat i)) = 2)
                   (seq 0 10))
    by (repeat constructor).
  rewrite Forall_forall in Hall. specialize (Hall (Z.to_nat n)).
  rewrite Z2Nat.id in Hall by lia. apply Hall, elem_of_seq. lia.
Qed.

Lemma format_02d_decode (n : Z) : (0 <= n)%Z -> decode (format_02d n) = Some n.
Proof.
  intros Hn. destruct (Z.lt_ge_cases n 10) as [Hlt|Hge].
  - now apply format_02d_digit.
  - unfold format_02d. destruct (Z.ltb_spec n 10); [lia|].
    rewrite andb_false_r. apply decode_str.
Qed.

Lemma format_02d_decode_any (n : Z) : decode (format_02d n) = Some n.
Proof.
  destruct (Z.lt_ge_cases n 0) as [Hneg|Hpos].
  - unfold format_02d. destruct (Z.leb_spec 0 n); [lia|]. apply decode_str.
  - now apply format_02d_decode.
Qed.

(** A string of at most one character denotes a digit, if anything. *)
Lemma decode_short (s : string) (n : Z) :
  String.length s <= 1 -> decode s = Some n -> (0 <= n <= 9)%Z.
Proof.
  destruct s as [|c [|c' s]]; simpl; intros Hlen; [discriminate| |lia].
  destruct c as [[] [] [] [] [] [] [] []]; vm_compute; intros [= <-];
    split; discriminate.
Qed.

Lemma format_02d_length (n : Z) : 2 <= String.length (format_02d n).
Proof.
  destruct (Z.lt_ge_cases n 0) as [Hneg|Hpos];
    [|destruct (Z.lt_ge_cases n 10) as [Hlt|Hge]].
  - unfold format_02d. destruct (Z.leb_spec 0 n); [lia|]. simpl.
    destruct (Nat.lt_ge_cases (String.length (str n)) 2) as [Hshort|]; [|lia].
    pose proof (decode_short (str n) n ltac:(lia) (decode_str n)). lia.
  - pose proof (format_02d_digit n ltac:(lia)) as [_ ->]. lia.
  - unfold format_02d. destruct (Z.ltb_spec n 10); [lia|].
    rewrite andb_false_r.
    destruct (Nat.lt_ge_cases (String.length (str n)) 2) as [Hshort|]; [|lia].
    pose proof (decode_short (str n) n ltac:(lia) (decode_str n)). lia.
Qed.

Lemma format_02d_seconds (x : Z) :
  (0 <= x < 60)%Z -> String.length (format_02d x) = 2.
Proof.
  intros Hx.
  assert (Hall : forallb (fun i => Nat.eqb (String.length (format_02d (Z.of_nat i))) 2)
                   (seq 0 60) = true) by (vm_compute; reflexivity).
  rewrite forallb_forall in Hall.
  specialize (Hall (Z.to_nat x)). rewrite Z2Nat.id in Hall by lia.
  apply Nat.eqb_eq, Hall, in_seq. lia.
Qed.

(** X5.  For a song whose duration is the integer [d],
    [duration_printable] is [mm ++ ":" ++ ss] where [ss] has exactly two
    characters and [mm] at least two, [mm] reads as [d // 60] and [ss] as
    [d % 60]: sixty times the minutes plus the seconds give [d] back. *)
Theorem duration_printable_round_trip (s : Song.t) (d : Z) :
  Song._duration s = JNum d ->
  exists mm ss minutes seconds,
    Song_duration_printable s = Ok (String.append mm (String ":" ss)) /\
    2 <= String.length mm /\
    String.length ss = 2 /\
    decode mm = Some minutes /\
    decode ss = Some seconds /\
    (0 <= seconds < 60)%Z /\
    (60 * minutes + seconds = d)%Z.
Proof.
  intros Hd. unfold Song_duration_printable. rewrite Hd. simpl.
  pose proof (Z.mod_pos_bound d 60 ltac:(lia)) as Hsec.
  exists (format_02d (d / 60)), (format_02d (d mod 60)), (d / 60)%Z, (d mod 60)%Z.
  split; [reflexivity|]. split; [apply format_02d_length|].
  split; [now apply format_02d_seconds|].
  split; [apply format_02d_decode_any|]. split; [apply format_02d_decode_any|].
  split; [exact Hsec|]. pose proof (Z.div_mod d 60 ltac:(lia)). lia.
Qed.

Lemma rmap_Forall2 {A B} (f : A -> result B) (xs : list A) (ys : list B) :
  rmap f xs = Ok ys <-> Forall2 (fun x y => f x = Ok y) xs ys.
Proof.
  revert ys. induction xs as [|x xs IH]; intros ys; simpl.
  - split.
    + intros [= <-]. constructor.
    + intros H. inversion H. reflexivity.
  - unfold rbind. destruct (f x) as [y|e] eqn:Hx.
    + destruct (rmap f xs) as [ys'|e] eqn:Hxs.
      * split.
        -- intros [= <-]. constructor; [exact Hx|]. now apply IH.
        -- intros H. inversion H as [|? y0 ? ys0 Hy Hrest]; subst.
           apply IH in Hrest. congruence.
      * split; [discriminate|].
        intros H. inversion H as [|? y0 ? ys0 Hy Hrest]; subst.
        apply IH in Hrest. discriminate.
    + split; [discriminate|].
      intros H. inversion H; subst. congruence.
Qed.

Lemma rmap_total {A B} (f : A -> result B) (xs : list A) :
  Forall (fun x => exists y, f x = Ok y) xs ->
  exists ys, rmap f xs = Ok ys /\ length ys = length xs.
Proof.
  induction 1 as [|x xs [y Hy] _ (ys & Hys & Hlen)]; simpl.
  - exists []. auto.
  - exists (y :: ys). rewrite Hy, Hys. simpl. auto.
Qed.

Lemma Song_init_object (j : json) :
  is_object j -> exists s, Song.__init__ j = Ok s.
Proof.
  destruct j; try contradiction. intros _.
  unfold Song.__init__. rewrite !get_or_dict. simpl. eauto.
Qed.

Lemma meta_constructors_objects (d : list (string * json)) :
  (exists s, Song.__init__ (JObj d) = Ok s) /\
  (exists a, AlbumMeta.__init__ (JObj d) = Ok a) /\
  (exists a, ArtistMeta.__init__ (JObj d) = Ok a) /\
  (exists p, PlaylistMeta.__init__ (JObj d) = Ok p).
Proof.
  unfold Song.__init__, AlbumMeta.__init__, ArtistMeta.__init__,
    PlaylistMeta.__init__.
  rewrite !get_or_dict. simpl. eauto 10.
Qed.

Lemma containers_playlist (d : list (string * json)) :
  (dict_get "entry" d = None ->
   Playlist.__init__ (JObj d) = Raise (KeyError "entry")) /\
  (forall payloads,
     dict_get "entry" d = Some (JList payloads) ->
     Forall is_object payloads ->
     exists p,
       Playlist.__init__ (JObj d) = Ok p /\
       Forall2 (fun x s => Song.__init__ x = Ok s) payloads (Playlist.songs p)).
Proof.
  split.
  - intros H. unfold Playlist.__init__, PlaylistMeta.__init__.
    rewrite !get_or_dict. simpl. now rewrite H.
  - intros payloads H Hobj.
    destruct (rmap_total Song.__init__ payloads) as (songs & Hs & Hlen).
    { eapply Forall_impl; [exact Hobj|]. apply Song_init_object. }
    unfold Playlist.__init__, PlaylistMeta.__init__.
    rewrite !get_or_dict. simpl. rewrite H. simpl. rewrite Hs. simpl.
    eexists. split; [reflexivity|]. now apply rmap_Forall2.
Qed.

(** X6.  [Album], [Artist] and [Playlist] need their list: on a JSON
    object without the key ["song"], ["album"] or ["entry"] they raise
    KeyError for that key.  When the key holds a list of JSON objects,
    [Album] and [Playlist] succeed with one [Song] per element, in
    order. *)
Theorem containers_need_their_list (d : list (string * json)) :
  (dict_get "song" d = None ->
   Album.__init__ (JObj d) = Raise (KeyError "song")) /\
  (dict_get "album" d = None ->
   Artist.__init__ (JObj d) = Raise (KeyError "album")) /\
  (dict_get "entry" d = None ->
   Playlist.__init__ (JObj d) = Raise (KeyError "entry")) /\
  (forall payloads,
     dict_get "song" d = Some (JList payloads) ->
     Forall is_object payloads ->
     exists a,
       Album.__init__ (JObj d) = Ok a /\
       length (Album.songs a) = length payloads /\
       Forall2 (fun p s => Song.__init__ p = Ok s) payloads (Album.songs a)) /\
  (forall payloads,
     dict_get "entry" d = Some (JList payloads) ->
     Forall is_object payloads ->
     exists p,
       Playlist.__init__ (JObj d) = Ok p /\
       length (Playlist.songs p) = length payloads /\
       Forall2 (fun x s => Song.__init__ x = Ok s) payloads (Playlist.songs p)).
Proof.
  assert (Hsongs : forall payloads, Forall is_object payloads ->
            exists songs, rmap Song.__init__ payloads = Ok songs /\
                          length songs = length payloads).
  { intros payloads Hobj. apply rmap_total.
    eapply Forall_impl; [exact Hobj|]. apply Song_init_object. }
  split; [|split; [|split; [|split]]].
  - intros H. unfold Album.__init__, AlbumMeta.__init__.
    rewrite !get_or_dict. simpl. now rewrite H.
  - intros H. unfold Artist.__init__, ArtistMeta.__init__.
    rewrite !get_or_dict. simpl. now rewrite H.
  - intros H. unfold Playlist.__init__, PlaylistMeta.__init__.
    rewrite !get_or_dict. simpl. now rewrite H.
  - intros payloads H Hobj. destruct (Hsongs payloads Hobj) as (songs & Hs & Hlen).
    unfold Album.__init__, AlbumMeta.__init__.
    rewrite !get_or_dict. simpl. rewrite H. simpl. rewrite Hs. simpl.
    eexists. split; [reflexivity|]. simpl. split; [exact Hlen|].
    now apply rmap_Forall2.
  - intros payloads H Hobj. destruct (Hsongs payloads Hobj) as (songs & Hs & Hlen).
    unfold Playlist.__init__, PlaylistMeta.__init__.
    rewrite !get_or_dict. simpl. rewrite H. simpl. rewrite Hs. simpl.
    eexists. split; [reflexivity|]. simpl. split; [exact Hlen|].
    now apply rmap_Forall2.
Qed.

(** ** The request functions: what is sent and what comes back *)

Section Quiet.
Lemma quiet_ret {A} (a : A) : quiet (ret a).
Proof. intros w. auto. Qed.

Lemma quiet_raise {A} (e : exn) : quiet (@raise A e).
Proof. intros w. auto. Qed.

Lemma quiet_lift {A} (r : result A) : quiet (lift r).
Proof. intros w. auto. Qed.

Lemma quiet_bind {A B} (m : M A) (f : A -> M B) :
  quiet m -> (forall a, quiet (f a)) -> quiet (bind m f).
Proof.
  intros Hm Hf w. unfold bind. destruct (Hm w) as (H1 & H2 & H3).
  destruct (m w) as [[a|e] w1]; simpl in *.
  - destruct (Hf a w1) as (H4 & H5 & H6). repeat split; congruence.
  - auto.
Qed.

Lemma quiet_if {A} (b : bool) (m1 m2 : M A) :
  quiet m1 -> quiet m2 -> quiet (if b then m1 else m2).
Proof. destruct b; auto. Qed.

Lemma quiet_logger_warning (fmt : string) (a : list json) :
  quiet (logger_warning fmt a).
Proof. intros w. auto. Qed.

Lemma quiet_logger_error (fmt : string) (e : exn) : quiet (logger_error fmt e).
Proof. intros w. auto. Qed.

Lemma quiet_raise_for_status (response : ClientResponse) :
  quiet (raise_for_status response).
Proof.
  unfold raise_for_status. apply quiet_if; [apply quiet_raise|apply quiet_ret].
Qed.

Lemma quiet_match_err_code (err_code : json) : quiet (match_err_code err_code).
Proof.
  unfold match_err_code.
  destruct (find _ fatal_cases) as [[? ?]|]; [apply quiet_raise|].
  apply quiet_if; [|apply quiet_raise].
  apply quiet_bind; [apply quiet_logger_warning|intros; apply quiet_ret].
Qed.

Lemma quiet_check_parsed (response : json) : quiet (check_parsed response).
Proof.
  unfold check_parsed.
  repeat first
    [ apply quiet_bind; [apply quiet_lift|intros ?]
    | apply quiet_if; [apply quiet_ret|] ].
  apply quiet_match_err_code.
Qed.

Lemma quiet_check_subsonic_error (response : check_arg) :
  quiet (check_subsonic_error response).
Proof.
  destruct response as [j|r]; simpl; [apply quiet_check_parsed|].
  destruct (response_json r); [apply quiet_check_parsed|apply quiet_ret].
Qed.
End Quiet.

Section RequestsSent.
Variable env : Env.

(** X7.  Whatever the filters and whatever the server answers,
    [get_random_songs] sends exactly one request, to
    [getRandomSongs.view]; it carries the shared user, password,
    version, client and format, and of the five filters exactly those
    that are not [None], under the API's names. *)
Theorem get_random_songs_request
    (size : option Z) (genre : option string) (from_year to_year : option Z)
    (music_folder_id : option string) (w : World) :
  exists req,
    requests (snd (get_random_songs env size genre from_year to_year
                     music_folder_id w))
      = requests w ++ [req] /\
    req_url req = endpoint env "/rest/getRandomSongs.view" /\
    dict_get "u" (req_params req) = Some (JStr (SUBSONIC_USER env)) /\
    dict_get "p" (req_params req) = Some (JStr (SUBSONIC_PASSWORD env)) /\
    dict_get "v" (req_params req) = Some (JStr "1.15.0") /\
    dict_get "c" (req_params req) = Some (JStr "discodrome") /\
    dict_get "f" (req_params req) = Some (JStr "json") /\
    dict_get "size" (req_params req) = JNum <$> size /\
    dict_get "genre" (req_params req) = JStr <$> genre /\
    dict_get "fromYear" (req_params req) = JNum <$> from_year /\
    dict_get "toYear" (req_params req) = JNum <$> to_year /\
    dict_get "musicFolderId" (req_params req) = JStr <$> music_folder_id /\
    length (req_params req)
      = 5 + given size + given genre + given from_year + given to_year
        + given music_folder_id.
Proof.
  eexists. split.
  - unfold get_random_songs. unfold bind at 1 2. unfold get_session, session_get.
    cbv beta iota. cbn [network requests].
    destruct (network w) as [|[response|] rest]; try reflexivity.
    match goal with
    | |- requests (snd (?m ?w0)) = _ =>
        assert (Hq : quiet m);
        [|destruct (Hq w0) as [-> _]; reflexivity]
    end.
    repeat first
      [ apply quiet_ret
      | apply quiet_bind;
        [first [apply quiet_raise_for_status | apply quiet_lift
               | apply quiet_check_subsonic_error]|intros ?]
      | apply quiet_if ].
  - destruct size, genre, from_year, to_year, music_folder_id; repeat split.
Qed.

Lemma check_parsed_ok (body sr : json) (w : World) :
  getitem body "subsonic-response" = Ok sr ->
  getitem sr "status" = Ok (JStr "ok") ->
  check_parsed body w = (Ok false, w).
Proof.
  intros Hsr Hst. now rewrite (check_parsed_status _ _ _ _ Hsr Hst).
Qed.

Lemma check_parsed_70 (body : json) (w : World) :
  error_body body 70 ->
  check_parsed body w = (Ok true, with_warning 70 w).
Proof. intros H. now rewrite (check_parsed_error _ _ _ H). Qed.

(** X8.  [get_artist_id], once the search is answered: a "not found"
    envelope (code 70) gives [None]; an "ok" answer whose search result
    has no ["artist"] key raises KeyError and one whose artist list is
    empty raises IndexError; otherwise the id of the first artist is
    returned. *)
Theorem get_artist_id_outcomes
    (query : string) (w : World) (response : ClientResponse)
    (rest : list (option ClientResponse)) (body : json) :
  network w = Some response :: rest ->
  (status response < 400)%Z ->
  json_body response = Some body ->
  let out := get_artist_id env query w in
  (error_body body 70 -> fst out = Ok JNull) /\
  (forall sr res,
     getitem body "subsonic-response" = Ok sr ->
     getitem sr "status" = Ok (JStr "ok") ->
     getitem sr "searchResult3" = Ok (JObj res) ->
     (dict_get "artist" res = None -> fst out = Raise (KeyError "artist")) /\
     (dict_get "artist" res = Some (JList []) -> fst out = Raise IndexError) /\
     (forall first others artistid,
        dict_get "artist" res = Some (JList (first :: others)) ->
        getitem first "id" = Ok artistid ->
        fst out = Ok artistid)).
Proof.
  intros Hnet Hstatus Hbody out. subst out.
  unfold get_artist_id, bind, get_session, session_get. simpl.
  rewrite Hnet, raise_for_status_ok by assumption.
  unfold lift, ret. rewrite (response_json_Some _ _ Hbody).
  unfold check_subsonic_error. split.
  - intros H70. now rewrite check_parsed_70.
  - intros sr res Hsr Hst Hres. rewrite (check_parsed_ok _ _ _ Hsr Hst).
    rewrite Hsr, Hres. simpl. split; [|split].
    + now intros ->.
    + now intros ->.
    + intros first others artistid -> Hid. simpl. now rewrite Hid.
Qed.

(** X9.  [get_user_playlists], once the request is answered: "not
    found" (code 70) gives [None]; an "ok" answer whose [playlists]
    object has no ["playlist"] key gives the empty list, not an error;
    otherwise the value under ["playlist"] is returned as it is; an "ok"
    answer without ["playlists"] raises KeyError. *)
Theorem get_user_playlists_outcomes
    (w : World) (response : ClientResponse)
    (rest : list (option ClientResponse)) (body : json) :
  network w = Some response :: rest ->
  (status response < 400)%Z ->
  json_body response = Some body ->
  let out := get_user_playlists env w in
  (error_body body 70 -> fst out = Ok JNull) /\
  (forall sr,
     getitem body "subsonic-response" = Ok (JObj sr) ->
     dict_get "status" sr = Some (JStr "ok") ->
     (dict_get "playlists" sr = None ->
      fst out = Raise (KeyError "playlists")) /\
     (forall playlists,
        dict_get "playlists" sr = Some (JObj playlists) ->
        fst out = Ok (default (JList []) (dict_get "playlist" playlists)))).
Proof.
  intros Hnet Hstatus Hbody out. subst out.
  unfold get_user_playlists, bind, get_session, session_get. simpl.
  rewrite Hnet, raise_for_status_ok by assumption.
  unfold lift, ret. rewrite (response_json_Some _ _ Hbody).
  unfold check_subsonic_error. split.
  - intros H70. now rewrite check_parsed_70.
  - intros sr Hsr Hst.
    assert (Hst' : getitem (JObj sr) "status" = Ok (JStr "ok"))
      by (simpl; now rewrite Hst).
    rewrite (check_parsed_ok _ _ _ Hsr Hst'). rewrite Hsr. simpl. split.
    + now intros ->.
    + intros playlists ->. simpl.
      destruct (dict_get "playlist" playlists); reflexivity.
Qed.

(** X10.  [get_playlist], once the request is answered "ok": when the
    playlist object has no ["entry"] key (a playlist without songs) the
    constructor's KeyError is caught, an error is logged and [None] is
    returned; when ["entry"] is a list of JSON objects the playlist is
    returned with one [Song] per element.  A "not found" answer gives
    [None] too. *)
Theorem get_playlist_outcomes
    (id : string) (w : World) (response : ClientResponse)
    (rest : list (option ClientResponse)) (body : json) :
  network w = Some response :: rest ->
  (status response < 400)%Z ->
  json_body response = Some body ->
  let out := get_playlist env id w in
  (error_body body 70 -> fst out = Ok None) /\
  (forall sr pl,
     getitem body "subsonic-response" = Ok (JObj sr) ->
     dict_get "status" sr = Some (JStr "ok") ->
     dict_get "playlist" sr = Some (JObj pl) ->
     (dict_get "entry" pl = None ->
      fst out = Ok None /\
      log (snd out)
        = log w ++ [error_record "Failed to parse playlist data: %s"]) /\
     (forall payloads,
        dict_get "entry" pl = Some (JList payloads) ->
        Forall is_object payloads ->
        exists p,
          fst out = Ok (Some p) /\
          log (snd out) = log w /\
          Forall2 (fun x s => Song.__init__ x = Ok s) payloads
            (Playlist.songs p))).
Proof.
  intros Hnet Hstatus Hbody out. subst out.
  unfold get_playlist, bind, get_session, session_get. simpl.
  rewrite Hnet, raise_for_status_ok by assumption.
  unfold lift, ret. rewrite (response_json_Some _ _ Hbody).
  unfold check_subsonic_error. split.
  - intros H70. now rewrite check_parsed_70.
  - intros sr pl Hsr Hst Hpl.
    assert (Hst' : getitem (JObj sr) "status" = Ok (JStr "ok"))
      by (simpl; now rewrite Hst).
    rewrite (check_parsed_ok _ _ _ Hsr Hst').
    unfold parse_playlist. rewrite Hsr. simpl. rewrite Hpl. simpl.
    destruct (containers_playlist pl) as [Hnone Hsome]. split.
    + intros Hentry. rewrite (Hnone Hentry). split; reflexivity.
    + intros payloads Hentry Hobj.
      destruct (Hsome payloads Hentry Hobj) as (p & -> & Hsongs).
      exists p. auto.
Qed.

Lemma parse_category_objects {A} (init : json -> result A)
    (res : list (string * json)) (key : string) (payloads : option (list json)) :
  (forall d, exists y, init (JObj d) = Ok y) ->
  dict_get key res = JList <$> payloads ->
  Forall is_object (default [] payloads) ->
  exists ys,
    SearchResults.parse_category init (JObj res) key = Ok ys /\
    Forall2 (fun x y => init x = Ok y) (default [] payloads) ys.
Proof.
  intros Hinit Hkey Hobj. unfold SearchResults.parse_category. simpl.
  rewrite Hkey. destruct payloads as [ps|]; simpl in *.
  - destruct (rmap_total init ps) as (ys & Hys & _).
    { eapply Forall_impl; [exact Hobj|]. intros [] Hx; try contradiction.
      apply Hinit. }
    rewrite Hys. exists ys. split; [reflexivity|]. now apply rmap_Forall2.
  - exists []. split; [reflexivity|constructor].
Qed.

(** X11.  [search], once the request is answered "ok" with a search
    result whose ["song"], ["album"] and ["artist"] entries are each
    either absent or a list of JSON objects: the result holds one
    [Song], [AlbumMeta] and [ArtistMeta] per listed element, in the
    server's order, and an empty list for an absent category; it
    reports success and no error code. *)
Theorem search_parses_result
    (query : string)
    (artist_count artist_offset album_count album_offset
     song_count song_offset : Z)
    (w : World) (response : ClientResponse)
    (rest : list (option ClientResponse)) (body : json)
    (sr res : list (string * json)) (songs albums artists : option (list json)) :
  network w = Some response :: rest ->
  (status response < 400)%Z ->
  json_body response = Some body ->
  getitem body "subsonic-response" = Ok (JObj sr) ->
  dict_get "status" sr = Some (JStr "ok") ->
  dict_get "error" sr = None ->
  dict_get "searchResult3" sr = Some (JObj res) ->
  dict_get "song" res = JList <$> songs ->
  dict_get "album" res = JList <$> albums ->
  dict_get "artist" res = JList <$> artists ->
  Forall is_object (default [] songs) ->
  Forall is_object (default [] albums) ->
  Forall is_object (default [] artists) ->
  exists r,
    fst (search env query artist_count artist_offset album_count album_offset
           song_count song_offset w) = Ok r /\
    ApiResponse.succeeded (SearchResults.base r) = true /\
    ApiResponse._error_code (SearchResults.base r) = JNull /\
    Forall2 (fun x y => Song.__init__ x = Ok y) (default [] songs)
      (SearchResults.songs r) /\
    Forall2 (fun x y => AlbumMeta.__init__ x = Ok y) (default [] albums)
      (SearchResults.albums r) /\
    Forall2 (fun x y => ArtistMeta.__init__ x = Ok y) (default [] artists)
      (SearchResults.artists r).
Proof.
  intros Hnet Hstatus Hbody Hsr Hst Herr Hres Hsong Halbum Hartist Hs Hal Har.
  destruct (parse_category_objects Song.__init__ res "song" songs)
    as (ss & Hss & Hss2); try assumption.
  { intros d. apply (meta_constructors_objects d). }
  destruct (parse_category_objects AlbumMeta.__init__ res "album" albums)
    as (as' & Has & Has2); try assumption.
  { intros d. apply (meta_constructors_objects d). }
  destruct (parse_category_objects ArtistMeta.__init__ res "artist" artists)
    as (rs & Hrs & Hrs2); try assumption.
  { intros d. apply (meta_constructors_objects d). }
  unfold search, bind, get_session, session_get. simpl. rewrite Hnet.
  rewrite raise_for_status_ok by assumption.
  unfold lift, ret. rewrite (response_json_Some _ _ Hbody).
  unfold SearchResults.__init__, ApiResponse.__init__, ApiResponse.error_field.
  rewrite Hsr. simpl. rewrite Hst, Herr, Hres. simpl.
  rewrite Hss, Has, Hrs. simpl.
  eexists. split; [reflexivity|]. simpl. auto 10.
Qed.
(** X12.  [ping_api], once the request is answered.  An HTTP status of
    400 or more raises ClientResponseError and a body that is not JSON
    raises ContentTypeError.  On a JSON body the ping is [True] for an
    "ok" envelope and [False] only for error code 70; a fatal code, such
    as wrong credentials, is not answered with [False] but raises
    [APIError]. *)
Theorem ping_api_outcomes
    (w : World) (response : ClientResponse)
    (rest : list (option ClientResponse)) :
  network w = Some response :: rest ->
  let out := ping_api env w in
  ((400 <= status response)%Z ->
   fst out = Raise (ClientResponseError (status response))) /\
  ((status response < 400)%Z ->
   (json_body response = None -> fst out = Raise ContentTypeError) /\
   (forall body,
      json_body response = Some body ->
      (forall sr,
         getitem body "subsonic-response" = Ok sr ->
         getitem sr "status" = Ok (JStr "ok") ->
         fst out = Ok true) /\
      (error_body body 70 -> fst out = Ok false) /\
      (forall c,
         c ∈ fatal_codes -> error_body body c ->
         exists m, (c, m) ∈ fatal_cases /\
                   fst out = Raise (APIError (JNum c) m)))).
Proof.
  intros Hnet out. subst out.
  unfold ping_api, bind, get_session, session_get. simpl. rewrite Hnet. split.
  - intros Hstatus. unfold raise_for_status.
    destruct (Z.leb_spec 400 (status response)); [reflexivity|lia].
  - intros Hstatus. rewrite raise_for_status_ok by assumption.
    unfold lift, ret. split.
    + intros Hbody. unfold response_json. now rewrite Hbody.
    + intros body Hbody. rewrite (response_json_Some _ _ Hbody).
      unfold check_subsonic_error. split; [|split].
      * intros sr Hsr Hst. now rewrite (check_parsed_ok _ _ _ Hsr Hst).
      * intros H70. now rewrite check_parsed_70.
      * intros c Hc Herr. destruct (match_err_code_fatal c Hc) as (m & Hm & Hraise).
        exists m. split; [exact Hm|].
        now rewrite (check_parsed_error _ _ _ Herr), Hraise.
Qed.
End RequestsSent.

(** ** The error check: malformed envelopes and side effects *)

(** X13.  Edge cases of [check_subsonic_error].  A response whose body
    is not JSON counts as no error.  A JSON object without
    ["subsonic-response"], and an envelope that is not "ok" but has no
    ["error"] object, raise KeyError, not [APIError].  An error code
    that is a string matches none of the cases, so it is reported as
    "Unknown Error Code.". *)
Theorem check_subsonic_error_malformed (w : World) :
  (forall r, json_body r = None ->
     check_subsonic_error (Unparsed r) w = (Ok false, w)) /\
  (forall d, dict_get "subsonic-response" d = None ->
     check_subsonic_error (Parsed (JObj d)) w
       = (Raise (KeyError "subsonic-response"), w)) /\
  (forall body sr st,
     getitem body "subsonic-response" = Ok (JObj sr) ->
     dict_get "status" sr = Some st ->
     is_str "ok" st = false ->
     (dict_get "error" sr = None ->
      check_subsonic_error (Parsed body) w = (Raise (KeyError "error"), w)) /\
     (forall err code,
        dict_get "error" sr = Some err ->
        getitem err "code" = Ok (JStr code) ->
        check_subsonic_error (Parsed body) w
          = (Raise (APIError (JStr code) "Unknown Error Code."), w))).
Proof.
  split; [|split].
  - intros r Hr. unfold check_subsonic_error, response_json. now rewrite Hr.
  - intros d Hd. unfold check_subsonic_error, check_parsed, bind, lift. simpl.
    now rewrite Hd.
  - intros body sr st Hsr Hst Hok.
    assert (Hst' : getitem (JObj sr) "status" = Ok st) by (simpl; now rewrite Hst).
    unfold check_subsonic_error.
    rewrite (check_parsed_status _ _ _ _ Hsr Hst'), Hok. simpl. split.
    + now intros ->.
    + intros err code -> Hcode. simpl. now rewrite Hcode.
Qed.

(** X14.  [check_subsonic_error] sends nothing and touches neither the
    session nor the files.  It returns [True] only after logging the
    "not found" warning, and in every other outcome the log is as it
    was. *)
Theorem check_subsonic_error_effects (response : check_arg) (w : World) :
  let out := check_subsonic_error response w in
  globalsession (snd out) = globalsession w /\
  network (snd out) = network w /\
  requests (snd out) = requests w /\
  files (snd out) = files w /\
  ((fst out = Ok true /\
    exists code, log (snd out) = log w ++ [not_found_warning code]) \/
   (fst out <> Ok true /\ log (snd out) = log w)).
Proof.
  assert (Hcode : forall code w0,
            let out := match_err_code code w0 in
            globalsession (snd out) = globalsession w0 /\
            network (snd out) = network w0 /\
            requests (snd out) = requests w0 /\
            files (snd out) = files w0 /\
            ((fst out = Ok true /\
              exists c, log (snd out) = log w0 ++ [not_found_warning c]) \/
             (fst out <> Ok true /\ log (snd out) = log w0))).
  { intros code w0. unfold match_err_code.
    destruct (find _ fatal_cases) as [[? ?]|]; simpl.
    - repeat split. right. split; [discriminate|reflexivity].
    - destruct (py_eq_int code 70); simpl.
      + repeat split. left. split; [reflexivity|]. now exists code.
      + repeat split. right. split; [discriminate|reflexivity]. }
  assert (Hparsed : forall body,
            let out := check_parsed body w in
            globalsession (snd out) = globalsession w /\
            network (snd out) = network w /\
            requests (snd out) = requests w /\
            files (snd out) = files w /\
            ((fst out = Ok true /\
              exists c, log (snd out) = log w ++ [not_found_warning c]) \/
             (fst out <> Ok true /\ log (snd out) = log w))).
  { intros body. unfold check_parsed, bind, lift, ret.
    destruct (getitem body "subsonic-response") as [sr|]; simpl;
      [|repeat split; right; split; [discriminate|reflexivity]].
    destruct (getitem sr "status") as [st|]; simpl;
      [|repeat split; right; split; [discriminate|reflexivity]].
    destruct (is_str "ok" st); simpl;
      [repeat split; right; split; [discriminate|reflexivity]|].
    destruct (getitem sr "error") as [err|]; simpl;
      [|repeat split; right; split; [discriminate|reflexivity]].
    destruct (getitem err "code") as [code|]; simpl;
      [|repeat split; right; split; [discriminate|reflexivity]].
    apply Hcode. }
  destruct response as [j|r]; simpl; [apply Hparsed|].
  unfold response_json. destruct (json_body r); [apply Hparsed|].
  simpl. repeat split. right. split; [discriminate|reflexivity].
Qed.

(** ** Messages *)

(** X15.  [SysMsg.msg] sends exactly one embed, titled with the header.
    Its description is never longer than 4096 characters: a message
    that fits is sent as it is, a longer one is cut to its first 4093
    characters followed by "...".  The player is not touched. *)
Theorem SysMsg_msg_description_bound
    (header : string) (message : option string) (g : Guild) :
  exists e,
    sent (SysMsg_msg header message g) = sent g ++ [e] /\
    title e = header /\
    player (SysMsg_msg header message g) = player g /\
    match message with
    | None => description e = None
    | Some m =>
        exists d,
          description e = Some d /\
          String.length d <= 4096 /\
          (String.length m <= 4096 -> d = m) /\
          (4096 < String.length m ->
           d = String.append (substring 0 4093 m) "..." /\
           String.length d = 4096)
    end.
Proof.
  unfold SysMsg_msg. eexists. split; [reflexivity|]. simpl.
  split; [reflexivity|]. split; [reflexivity|].
  destruct message as [m|]; [|reflexivity].
  destruct (Nat.ltb_spec 4096 (String.length m)) as [Hlong|Hfits].
  - eexists. split; [reflexivity|].
    assert (Hlen : String.length (String.append (substring 0 4093 m) "...") = 4096).
    { rewrite length_append, length_substring_0 by lia. reflexivity. }
    split; [lia|]. split; [lia|]. auto.
  - exists m. split; [reflexivity|]. split; [exact Hfits|].
    split; [reflexivity|lia].
Qed.

(** ** The voice-state listener over whole traces *)

Section ListenerTraces.
Implicit Types (b : Bot) (es : list event).

Lemma reset_reset (g : Guild) : reset (reset g) = reset g.
Proof. reflexivity. Qed.

(** What a handler that wakes can do: nothing, or disconnect and
    reset. *)
Lemma after_sleep_cases b :
  after_sleep b = b \/
  after_sleep b
    = {| guild := reset (guild b); members := members b; now := now b;
         sleeping := sleeping b; disconnects := S (disconnects b) |}.
Proof.
  unfold after_sleep. destruct (Nat.eqb (members b) 1); [right|left]; reflexivity.
Qed.

Lemma wake_effect (due : list nat) :
  forall b,
    members (wake due b) = members b /\
    now (wake due b) = now b /\
    sleeping (wake due b) = sleeping b /\
    disconnects b <= disconnects (wake due b) <= disconnects b + length due /\
    ((guild (wake due b) = guild b /\ disconnects (wake due b) = disconnects b) \/
     (guild (wake due b) = reset (guild b) /\
      disconnects b < disconnects (wake due b))).
Proof.
  induction due as [|t due IH]; intros b; simpl.
  - repeat split; try lia. left. auto.
  - destruct (IH (after_sleep b)) as (Hm & Hn & Hs & Hd & Hg).
    destruct (after_sleep_cases b) as [E|E]; rewrite E in *; simpl in *.
    + repeat split; try assumption; lia.
    + repeat split; try assumption; try lia.
      right. destruct Hg as [[-> ->]|[-> Hlt]]; split; auto; lia.
Qed.

Lemma length_filter_split (t : nat) (l : list nat) :
  length (filter (fun t' => t' = t) l) + length (filter (fun t' => t' <> t) l)
    = length l.
Proof.
  induction l as [|x l IH]; [reflexivity|].
  rewrite !filter_cons. destruct (decide (x = t)); destruct (decide (x <> t));
    simpl; try contradiction; lia.
Qed.

Lemma step_effect (e : event) b :
  disconnects b <= disconnects (step e b) /\
  disconnects (step e b) + length (sleeping (step e b))
    <= disconnects b + length (sleeping b)
       + (if is_alone_update e then 1 else 0) /\
  ((guild (step e b) = guild b /\ disconnects (step e b) = disconnects b) \/
   (guild (step e b) = reset (guild b) /\
    disconnects b < disconnects (step e b))).
Proof.
  destruct e as [n|].
  - assert (Hcases :
      step (VoiceStateUpdate n) b
        = {| guild := guild b; members := n; now := now b;
             sleeping := sleeping b; disconnects := disconnects b |} \/
      (n = 1 /\
       step (VoiceStateUpdate n) b
         = {| guild := guild b; members := n; now := now b;
              sleeping := sleeping b ++ [now b + 10];
              disconnects := disconnects b |})).
    { unfold step, on_voice_state_update. simpl.
      destruct (voice_client (guild b)); [|left; reflexivity].
      destruct (Nat.eqb_spec n 1); [right|left]; auto. }
    destruct Hcases as [->|[-> ->]]; simpl.
    + split; [lia|]. split; [lia|]. left. auto.
    + rewrite length_app. simpl. split; [lia|]. split; [lia|]. left. auto.
  - simpl.
    match goal with
    | |- context [wake ?due ?b0] =>
        destruct (wake_effect due b0) as (_ & _ & Hs & Hd & Hg)
    end.
    simpl in *. rewrite Hs.
    pose proof (length_filter_split (S (now b)) (sleeping b)).
    split; [lia|]. split; [lia|]. exact Hg.
Qed.

Lemma disconnects_aux es b :
  disconnects b <= disconnects (run es b) /\
  disconnects (run es b) + length (sleeping (run es b))
    <= disconnects b + length (sleeping b) + triggers es.
Proof.
  revert b. induction es as [|e es IH]; intros b.
  - simpl. unfold triggers. simpl. lia.
  - rewrite run_cons. destruct (IH (step e b)) as [IH1 IH2].
    destruct (step_effect e b) as (H1 & H2 & _).
    unfold triggers in *. simpl. destruct (is_alone_update e); simpl in *; lia.
Qed.

Lemma resets_aux es b :
  (guild (run es b) = guild b /\ disconnects (run es b) = disconnects b) \/
  (guild (run es b) = reset (guild b) /\ disconnects b < disconnects (run es b)).
Proof.
  revert b. induction es as [|e es IH]; intros b.
  - left. auto.
  - rewrite run_cons. destruct (step_effect e b) as (_ & _ & Hstep).
    destruct (IH (step e b)) as [[Hg Hd]|[Hg Hd]];
      destruct Hstep as [[Hg' Hd']|[Hg' Hd']];
      rewrite Hg, ?Hg', ?reset_reset; [left|right|right|right]; split;
      auto; lia.
Qed.

(** X16.  Over any sequence of updates and seconds the listener calls
    [disconnect] at most once per handler: the number of calls never
    goes down and grows by no more than the handlers that were already
    waiting plus the updates of the trace that left exactly one member
    in the channel. *)
Theorem disconnects_bounded es b :
  disconnects b <= disconnects (run es b) /\
  disconnects (run es b) + length (sleeping (run es b))
    <= disconnects b + length (sleeping b) + triggers es.
Proof. exact (disconnects_aux es b). Qed.

(** X17.  Whatever happens, the listener leaves the guild either exactly
    as it was or hard-reset (queue empty, no current track, voice client
    gone), the latter only together with a disconnect; it never changes
    the [Song] objects or the messages sent. *)
Theorem listener_resets_or_nothing es b :
  (guild (run es b) = guild b /\ disconnects (run es b) = disconnects b) \/
  (guild (run es b) = reset (guild b) /\ disconnects b < disconnects (run es b)).
Proof. exact (resets_aux es b). Qed.

(** X18.  With no handler waiting, a trace in which no update leaves
    exactly one member in the channel changes nothing: no disconnect, no
    reset, no handler left waiting. *)
Theorem listener_quiet es b :
  sleeping b = [] ->
  triggers es = 0 ->
  guild (run es b) = guild b /\
  disconnects (run es b) = disconnects b /\
  sleeping (run es b) = [].
Proof.
  intros Hs Ht.
  destruct (disconnects_aux es b) as [H1 H2]. rewrite Hs, Ht in H2. simpl in H2.
  assert (Hd : disconnects (run es b) = disconnects b) by lia.
  split; [|split; [exact Hd|]].
  - destruct (resets_aux es b) as [[Hg _]|[_ Hlt]]; [exact Hg|lia].
  - destruct (sleeping (run es b)); [reflexivity|simpl in H2; lia].
Qed.
End ListenerTraces.

(** ** The [queue] command *)




Section QueueCommand.
Variable fmt : json -> string.




(** X20.  How [stop], [queue] and [clear] compose.  After [stop] (with a
    voice client connected) the head of the queue is [None], so [queue]
    fails with AttributeError; after [clear] it works again and, nothing
    being current, answers "Queue is empty!". *)
Theorem show_queue_after_stop (g : Guild) (vc : VoiceClient) (name : string) :
  voice_client g = Some vc ->
  show_queue fmt (stop g) = Raise AttributeError /\
  exists g',
    show_queue fmt (clear_queue name (stop g)) = Ok g' /\
    last (sent g')
      = Some {| title := "Queue"; description := Some "Queue is empty!" |} /\
    player g' = {| queue := []; current_song := None |}.
Proof.
  intros Hvc. unfold stop. rewrite Hvc. split; [reflexivity|].
  eexists. split; [reflexivity|]. simpl. split; [|reflexivity].
  now rewrite last_snoc.
Qed.
End QueueCommand.

(** ** The selection embed *)

Lemma length_substring_0_min (n : nat) (s : string) :
  String.length (substring 0 n s) = min n (String.length s).
Proof.
  revert n. induction s as [|c s IH]; intros [|n]; simpl; try reflexivity.
  now rewrite IH.
Qed.

(** X21.  The album tag shown in a selection entry is never longer than
    71 characters, and an album of at most 68 characters is shown as it
    is. *)
Theorem trim_album_bound (album : string) :
  String.length (trim_album album) <= 71 /\
  (String.length album <= 68 -> trim_album album = album) /\
  (68 < String.length album -> String.length (trim_album album) = 71).
Proof.
  unfold trim_album, py_slice_to.
  destruct (Nat.ltb_spec 68 (String.length album)) as [Hlong|Hfits].
  - rewrite length_append, length_substring_0_min.
    change (68 <? 0)%Z with false. cbv iota.
    change (Z.to_nat 68) with 68. change (String.length "...") with 3.
    split; [lia|]. split; [lia|]. intros _. lia.
  - split; [lia|]. split; [reflexivity|lia].
Qed.

(** X22.  The first line of a selection entry.  When title, " - " and
    artist have at most 71 characters together, both are shown as they
    are.  Otherwise exactly one of them is cut, the one that compares
    greater as a string (the artist on a tie), whatever their lengths;
    if that tag has at least as many characters as the line has beyond
    68, the line comes out with exactly 71 characters. *)
Theorem trim_top_line (title artist : string) :
  let top := String.length (String.append title (String.append " - " artist)) in
  let chosen := if String.ltb artist title then title else artist in
  let shown := trim_top title artist in
  (top <= 71 -> shown = (title, artist)) /\
  (71 < top ->
   (if String.ltb artist title then snd shown = artist else fst shown = title) /\
   (top - 68 <= String.length chosen ->
    String.length
      (String.append (fst shown) (String.append " - " (snd shown))) = 71)).
Proof.
  intros top chosen shown. subst shown chosen. unfold trim_top. fold top.
  assert (Htop : top = String.length title + (3 + String.length artist)).
  { subst top. rewrite !length_append. reflexivity. }
  destruct (Nat.ltb_spec 71 top) as [Hlong|Hfits].
  - split; [lia|]. intros _. unfold py_slice_to.
    destruct (Z.ltb_spec (68 - Z.of_nat top) 0); [|lia].
    destruct (String.ltb artist title); simpl.
    + split; [reflexivity|]. intros Hchosen.
      rewrite !length_append, length_substring_0_min. simpl. lia.
    + split; [reflexivity|]. intros Hchosen.
      rewrite !length_append, length_substring_0_min. simpl. lia.
  - split; [reflexivity|lia].
Qed.

(** ** The further properties on sample inputs *)




Lemma paginator_bad_page_size_witness :
  ListPaginator.__init__ ["a"; "b"] 0 = (Raise ZeroDivisionError, ["a"; "b"]) /\
  ListPaginator.__init__ ["a"; "b"] (-2) = (Raise IndexError, ["a"; "b"]).
Proof.
  split.
  - apply (paginator_bad_page_size ["a"; "b"] 0); [lia|reflexivity].
  - apply (paginator_bad_page_size ["a"; "b"] (-2)); [lia|lia|discriminate].
Defined.

Lemma duration_printable_round_trip_witness :
  Song._duration song_0 = JNum 215 /\
  exists mm ss minutes seconds,
    Song_duration_printable song_0 = Ok (String.append mm (String ":" ss)) /\
    2 <= String.length mm /\
    String.length ss = 2 /\
    decode mm = Some minutes /\
    decode ss = Some seconds /\
    (0 <= seconds < 60)%Z /\
    (60 * minutes + seconds = 215)%Z.
Proof.
  split; [reflexivity|].
  apply (duration_printable_round_trip song_0 215). reflexivity.
Defined.

Lemma containers_need_their_list_witness :
  Album.__init__ (JObj [("id", JStr "al-1"); ("name", JStr "Moondog")])
    = Raise (KeyError "song") /\
  exists a,
    Album.__init__ (album_json "al-1" "Moondog" [song_json "tr-1" "Lament I"])
      = Ok a /\
    length (Album.songs a) = 1.
Proof.
  split.
  - apply (containers_need_their_list
             [("id", JStr "al-1"); ("name", JStr "Moondog")]). reflexivity.
  - destruct (containers_need_their_list
                [("id", JStr "al-1"); ("name", JStr "Moondog");
                 ("song", JList [song_json "tr-1" "Lament I"])])
      as (_ & _ & _ & Halbum & _).
    destruct (Halbum [song_json "tr-1" "Lament I"] eq_refl) as (a & Ha & Hlen & _).
    + repeat constructor.
    + exists a. split; [exact Ha|exact Hlen].
Defined.

Lemma get_artist_id_outcomes_witness :
  fst (get_artist_id env0 "moondog" (serving [artist_search_answer]))
    = Ok (JStr "ar-1") /\
  fst (get_artist_id env0 "nobody" (serving [http_ok not_found])) = Ok JNull.
Proof.
  split.
  - destruct (get_artist_id_outcomes env0 "moondog"
                (serving [artist_search_answer]) artist_search_answer [] _
                eq_refl eq_refl eq_refl) as [_ Hok].
    destruct (Hok _ _ eq_refl eq_refl eq_refl) as (_ & _ & Hfirst).
    exact (Hfirst _ _ _ eq_refl eq_refl).
  - destruct (get_artist_id_outcomes env0 "nobody"
                (serving [http_ok not_found]) (http_ok not_found) [] _
                eq_refl eq_refl eq_refl) as [Hnone _].
    apply Hnone. do 3 eexists. repeat split; reflexivity.
Defined.

Lemma get_user_playlists_outcomes_witness :
  fst (get_user_playlists env0
         (serving [http_ok (ok_envelope "playlists" (JObj []))]))
    = Ok (JList []).
Proof.
  destruct (get_user_playlists_outcomes env0
              (serving [http_ok (ok_envelope "playlists" (JObj []))])
              (http_ok (ok_envelope "playlists" (JObj []))) [] _
              eq_refl eq_refl eq_refl) as [_ Hok].
  destruct (Hok _ eq_refl eq_refl) as [_ Hlist].
  exact (Hlist [] eq_refl).
Defined.

Lemma get_playlist_outcomes_witness :
  let out := get_playlist env0 "pl-1" (serving [empty_playlist_answer]) in
  fst out = Ok None /\
  log (snd out) = [error_record "Failed to parse playlist data: %s"].
Proof.
  destruct (get_playlist_outcomes env0 "pl-1" (serving [empty_playlist_answer])
              empty_playlist_answer [] _ eq_refl eq_refl eq_refl) as [_ Hok].
  destruct (Hok _ _ eq_refl eq_refl eq_refl) as [Hnone _].
  exact (Hnone eq_refl).
Defined.

Lemma search_parses_result_witness :
  exists r,
    fst (search env0 "lament" 0 0 0 0 20 0 (serving [song_search_answer])) = Ok r /\
    ApiResponse.succeeded (SearchResults.base r) = true /\
    length (SearchResults.songs r) = 1 /\
    SearchResults.albums r = [] /\
    SearchResults.artists r = [].
Proof.
  destruct (search_parses_result env0 "lament" 0 0 0 0 20 0
              (serving [song_search_answer]) song_search_answer [] _ _ _
              (Some [song_json "tr-1" "Lament I"]) None None
              eq_refl eq_refl eq_refl eq_refl eq_refl eq_refl eq_refl
              eq_refl eq_refl eq_refl)
    as (r & Hr & Hok & _ & Hsongs & Halbums & Hartists);
    try repeat constructor.
  exists r. split; [exact Hr|]. split; [exact Hok|].
  split; [|split].
  - apply Forall2_length in Hsongs. symmetry. exact Hsongs.
  - inversion Halbums. reflexivity.
  - inversion Hartists. reflexivity.
Defined.

Lemma ping_api_outcomes_witness :
  fst (ping_api env0 (serving [http_ok (ok_envelope "type" (JStr "navidrome"))]))
    = Ok true /\
  fst (ping_api env0 (serving [http_ok not_found])) = Ok false /\
  fst (ping_api env0 (serving [http_ok wrong_password]))
    = Raise (APIError (JNum 40) "Wrong username or password.").
Proof.
  split; [|split].
  - destruct (ping_api_outcomes env0
                (serving [http_ok (ok_envelope "type" (JStr "navidrome"))])
                _ [] eq_refl) as [_ Hanswered].
    destruct (Hanswered eq_refl) as [_ Hjson].
    destruct (Hjson _ eq_refl) as (Hok & _).
    exact (Hok _ eq_refl eq_refl).
  - destruct (ping_api_outcomes env0 (serving [http_ok not_found]) _ []
                eq_refl) as [_ Hanswered].
    destruct (Hanswered eq_refl) as [_ Hjson].
    destruct (Hjson _ eq_refl) as (_ & H70 & _).
    apply H70. do 3 eexists. repeat split; reflexivity.
  - reflexivity.
Defined.

Lemma check_subsonic_error_malformed_witness :
  check_subsonic_error
    (Parsed (JObj [("subsonic-response", JObj [("status", JStr "failed")])]))
    (serving [])
    = (Raise (KeyError "error"), serving []).
Proof.
  destruct (check_subsonic_error_malformed (serving [])) as (_ & _ & Hfailed).
  destruct (Hfailed
              (JObj [("subsonic-response", JObj [("status", JStr "failed")])])
              [("status", JStr "failed")] (JStr "failed")
              eq_refl eq_refl eq_refl) as [Hmissing _].
  exact (Hmissing eq_refl).
Defined.

Lemma SysMsg_msg_description_bound_witness :
  exists e,
    sent (SysMsg_msg "Queue" (Some "Queue is empty!") one_song_guild) = [e] /\
    description e = Some "Queue is empty!".
Proof.
  destruct (SysMsg_msg_description_bound "Queue" (Some "Queue is empty!")
              one_song_guild) as (e & Hsent & _ & _ & d & Hd & _ & Hfits & _).
  exists e. split; [exact Hsent|].
  rewrite Hd. f_equal. apply Hfits. simpl. lia.
Defined.

Lemma listener_quiet_witness :
  sleeping bot0 = [] /\
  triggers busy_channel = 0 /\
  guild (run busy_channel bot0) = playing_guild /\
  disconnects (run busy_channel bot0) = 0 /\
  sleeping (run busy_channel bot0) = [].
Proof.
  split; [reflexivity|]. split; [reflexivity|].
  apply (listener_quiet busy_channel bot0); reflexivity.
Defined.


Lemma show_queue_after_stop_witness :
  voice_client playing_guild = Some {| playing := true |} /\
  show_queue format_tag (stop playing_guild) = Raise AttributeError /\
  exists g',
    show_queue format_tag (clear_queue "dj" (stop playing_guild)) = Ok g' /\
    last (sent g')
      = Some {| title := "Queue"; description := Some "Queue is empty!" |} /\
    player g' = {| queue := []; current_song := None |}.
Proof.
  split; [reflexivity|].
  apply (show_queue_after_stop format_tag playing_guild {| playing := true |} "dj").
  reflexivity.
Defined.

Lemma trim_album_bound_witness :
  trim_album "Moondog" = "Moondog" /\
  String.length (trim_album long_title) = 71.
Proof.
  split.
  - apply (trim_album_bound "Moondog"). simpl. lia.
  - apply (trim_album_bound long_title). simpl. lia.
Defined.

Lemma trim_top_line_witness :
  String.ltb "Moondog" long_title = true /\
  snd (trim_top long_title "Moondog") = "Moondog" /\
  String.length
    (String.append (fst (trim_top long_title "Moondog"))
       (String.append " - " (snd (trim_top long_title "Moondog")))) = 71.
Proof.
  split; [reflexivity|].
  destruct (trim_top_line long_title "Moondog") as [_ Hlong].
  destruct Hlong as [Hkept Hlen]; [simpl; lia|].
  split; [exact Hkept|]. apply Hlen. simpl. lia.
Defined.
